(** * Akson web client: the study session of [AksonApp]

    A shallow embedding of the client-side class [AksonApp] (deck and card
    creation, the study session, card rating) and the properties of its
    session state machine.

    Modelling choices, all taken from the JavaScript:
    - card objects live in a store ([heap]) and are named by references;
      the [cards] array of a deck and the [cards] array of a session are
      lists of references, so that two arrays can share one card object,
      as [[...deck.cards]] makes them do;
    - the clock ([Date.now()], [new Date()]) is an argument [now] of the
      method that reads it, in milliseconds; an ISO timestamp string is
      represented by the instant it denotes;
    - the part of the document the study view writes (question and answer
      text, the three [style.display] flags, progress bar and progress
      text, deck name) is the record [StudyDom]; modals, forms, the
      navigation classes and the dashboard and deck lists are pure output
      and are left out, as is [localStorage] (written by [saveDecks], read
      once by the constructor);
    - a JavaScript exception is the outcome [Threw], carrying the state
      reached when it was raised. *)

From Stdlib Require Import ZArith QArith Qround Qminmax String Ascii DecimalString.
From stdpp Require Import base list option strings sorting.

Close Scope Q_scope.
Open Scope string_scope.
Open Scope nat_scope.

(** ** Values *)

(** The argument of [rateCard]: [e.target.dataset.rating] is a string, a
    direct caller may pass a number or nothing. *)
Inductive JsValue :=
| JsUndefined
| JsNum (z : Z)
| JsStr (s : string).

Definition rating_again : JsValue := JsNum 1.
Definition rating_hard : JsValue := JsNum 2.
Definition rating_good : JsValue := JsNum 3.
Definition rating_easy : JsValue := JsNum 4.

(** The only exception the modelled methods can raise: a property access
    on [undefined]. *)
Inductive JsError := TypeError.

(** [style.display] of an element of the study view. *)
Inductive Display := DisplayNone | DisplayBlock | DisplayFlex.

Inductive View := DashboardView | DecksView | StudyView.

(** [Number.prototype.toString] on an integer. *)
Definition toString (z : Z) : string := NilZero.string_of_int (Z.to_int z).

Definition natToString (n : nat) : string := toString (Z.of_nat n).

(** [String.prototype.trim], on the ASCII white space and line
    terminators. *)
Definition is_space (a : ascii) : bool :=
  let n := nat_of_ascii a in
  (n =? 32) || (n =? 9) || (n =? 10) || (n =? 11) || (n =? 12) || (n =? 13).

Fixpoint trimStart (s : string) : string :=
  match s with
  | String a s' => if is_space a then trimStart s' else s
  | EmptyString => EmptyString
  end.

Fixpoint trimEnd (s : string) : string :=
  match s with
  | String a s' =>
      match trimEnd s' with
      | EmptyString => if is_space a then EmptyString else String a EmptyString
      | t => String a t
      end
  | EmptyString => EmptyString
  end.

Definition trim (s : string) : string := trimEnd (trimStart s).

(** ** Data model *)

(** A reference to a card object: its position in the store. *)
Abbreviation Ref := nat.

Record Card := mkCard {
  card_id : string;
  question : string;
  answer : string;
  card_createdAt : Z;
  nextReview : Z;
  interval : Z;
  easeFactor : Q;
  repetitions : Z;
  lastReviewed : option Z   (* absent until the card is rated *)
}.

Record Deck := mkDeck {
  deck_id : string;
  deck_name : string;
  deck_description : string;
  deck_createdAt : Z;
  deck_cards : list Ref
}.

(** [currentStudySession], when it is not [null]. *)
Record Session := mkSession {
  session_deckId : string;
  session_cards : list Ref;
  currentIndex : nat
}.

Record StudyDom := mkStudyDom {
  question_text : string;
  answer_text : string;
  answer_container : Display;
  show_answer_btn : Display;
  rating_buttons : Display;
  progress_fill : Q;          (* width, in percent *)
  progress_text : string;
  current_deck_name : string
}.

Record App := mkApp {
  currentView : View;
  decks : list Deck;
  currentStudySession : option Session;
  currentCardIndex : nat;
  currentDeckId : option string;
  heap : list Card;
  dom : StudyDom
}.

(** ** Outcomes of a method call *)

Inductive Outcome :=
| Returned (st : App)
| Threw (e : JsError) (st : App).

Definition bind (o : Outcome) (k : App -> Outcome) : Outcome :=
  match o with
  | Returned st => k st
  | Threw e st => Threw e st
  end.

Notation "'call' st ':=' o 'in' k" := (bind o (fun st => k))
  (at level 10, st name, o at level 100, k at level 200).

Definition state_of (o : Outcome) : App :=
  match o with
  | Returned st => st
  | Threw _ st => st
  end.

(** ** Field updates *)

Definition with_dom (d : StudyDom) (st : App) : App :=
  mkApp (currentView st) (decks st) (currentStudySession st)
        (currentCardIndex st) (currentDeckId st) (heap st) d.

Definition with_view (v : View) (st : App) : App :=
  mkApp v (decks st) (currentStudySession st)
        (currentCardIndex st) (currentDeckId st) (heap st) (dom st).

Definition with_decks (ds : list Deck) (st : App) : App :=
  mkApp (currentView st) ds (currentStudySession st)
        (currentCardIndex st) (currentDeckId st) (heap st) (dom st).

Definition with_heap (h : list Card) (st : App) : App :=
  mkApp (currentView st) (decks st) (currentStudySession st)
        (currentCardIndex st) (currentDeckId st) h (dom st).

Definition with_session (s : option Session) (st : App) : App :=
  mkApp (currentView st) (decks st) s
        (currentCardIndex st) (currentDeckId st) (heap st) (dom st).

Definition set_lastReviewed (t : Z) (c : Card) : Card :=
  mkCard (card_id c) (question c) (answer c) (card_createdAt c)
         (nextReview c) (interval c) (easeFactor c) (repetitions c) (Some t).

Definition push_card (r : Ref) (d : Deck) : Deck :=
  mkDeck (deck_id d) (deck_name d) (deck_description d) (deck_createdAt d)
         (deck_cards d ++ [r]).

(** [this.decks.find(d => d.id === deckId)]: the first deck with that id,
    and its position. *)
Fixpoint find_deck_from (i : nat) (deckId : string) (ds : list Deck)
  : option (nat * Deck) :=
  match ds with
  | [] => None
  | d :: ds' =>
      if String.eqb (deck_id d) deckId then Some (i, d)
      else find_deck_from (S i) deckId ds'
  end.

Definition find_deck (deckId : string) (st : App) : option (nat * Deck) :=
  find_deck_from 0 deckId (decks st).

(** ** The study view: [nextCard] and [showAnswer] *)

(** The guard of [nextCard]: no session, or the cursor past the last
    card. *)
Definition session_completed (st : App) : bool :=
  match currentStudySession st with
  | None => true
  | Some s => length (session_cards s) <=? currentIndex s
  end.


(** The two numbers [nextCard] interpolates into the progress text. *)
Definition progress (st : App) : option (nat * nat) :=
  s ← currentStudySession st;
  Some (currentIndex s, length (session_cards s)).

Definition progress_label (i n : nat) : string :=
  natToString i ++ "/" ++ natToString n.

(** The width of the progress bar, [(i / n) * 100], as the exact quotient;
    the browser computes it in floating point. *)
Definition progress_percent (i n : nat) : Q :=
  (inject_Z (Z.of_nat i) / inject_Z (Z.of_nat n) * 100)%Q.

Definition show_completed (d : StudyDom) : StudyDom :=
  mkStudyDom "Study session completed!" (answer_text d)
             DisplayNone DisplayNone DisplayNone
             (progress_fill d) (progress_text d) (current_deck_name d).

Definition show_question (c : Card) (i n : nat) (d : StudyDom) : StudyDom :=
  mkStudyDom (question c) (answer c)
             DisplayNone DisplayBlock DisplayNone
             (progress_percent i n) (progress_label i n)
             (current_deck_name d).

Definition nextCard (st : App) : Outcome :=
  if session_completed st then
    Returned (with_dom (show_completed (dom st)) st)
  else
    match currentStudySession st with
    | None => Threw TypeError st
    | Some s =>
        match session_cards s !! currentIndex s ≫= (heap st !!.) with
        | None => Threw TypeError st
        | Some card =>
            Returned (with_dom (show_question card (currentIndex s)
                                  (length (session_cards s)) (dom st)) st)
        end
    end.

Definition showAnswer (st : App) : App :=
  with_dom (mkStudyDom (question_text (dom st)) (answer_text (dom st))
                       DisplayBlock DisplayNone DisplayFlex
                       (progress_fill (dom st)) (progress_text (dom st))
                       (current_deck_name (dom st))) st.

(** The phase of the question/answer cycle exists only as the visibility
    of the answer, of the show-answer button and of the rating buttons. *)
Definition showingQuestion (d : StudyDom) : Prop :=
  answer_container d = DisplayNone /\ show_answer_btn d = DisplayBlock /\
  rating_buttons d = DisplayNone.

Definition showingAnswer (d : StudyDom) : Prop :=
  answer_container d = DisplayBlock /\ show_answer_btn d = DisplayNone /\
  rating_buttons d = DisplayFlex.

(** ** Rating *)

Definition rateCard (rating : JsValue) (now : Z) (st : App) : Outcome :=
  match currentStudySession st with
  | None => Returned st
  | Some s =>
      match session_cards s !! currentIndex s with
      | None => Threw TypeError st          (* [card] is [undefined] *)
      | Some r =>
          match heap st !! r with
          | None => Threw TypeError st
          | Some card =>
              let st1 := with_heap (<[r := set_lastReviewed now card]> (heap st)) st in
              let st2 := with_session
                           (Some (mkSession (session_deckId s) (session_cards s)
                                            (S (currentIndex s)))) st1 in
              nextCard st2
          end
      end
  end.

(** ** Decks and cards *)

Definition is_empty (s : string) : bool :=
  match s with EmptyString => true | _ => false end.

Definition handleAddDeck (name description : string) (now : Z) (st : App) : App :=
  if is_empty (trim name) then st
  else
    let newDeck := mkDeck (toString now) (trim name) (trim description) now [] in
    with_decks (decks st ++ [newDeck]) st.

Definition newCard (question answer : string) (now : Z) : Card :=
  mkCard (toString now) (trim question) (trim answer) now now
         0%Z (5 # 2)%Q 0%Z None.

Definition handleAddCard (deckId question answer : string) (now : Z) (st : App)
  : App :=
  if is_empty (trim question) || is_empty (trim answer) then st
  else
    match find_deck deckId st with
    | None => st
    | Some (i, deck) =>
        let r := length (heap st) in
        with_decks (<[i := push_card r deck]> (decks st))
                   (with_heap (heap st ++ [newCard question answer now]) st)
    end.

(** [confirmed] is the answer to the [confirm] dialog. *)
Definition deleteDeck (deckId : string) (confirmed : bool) (st : App) : App :=
  if confirmed then
    with_decks (List.filter (fun d => negb (String.eqb (deck_id d) deckId))
                            (decks st)) st
  else st.

(** ** Starting a session and switching views

    [startStudySession] calls [switchView], which calls [renderStudyView],
    which calls [startStudySession] again when no session exists.  The
    cycle is cut by a fuel argument; [startStudySession_fuel_enough] below
    shows that one unit is always enough, the session being set before
    [switchView] is called. *)

Definition study_message (q name : string) (d : StudyDom) : StudyDom :=
  mkStudyDom q (answer_text d)
             (answer_container d) (show_answer_btn d) (rating_buttons d)
             0%Q "0/0" name.

Definition set_deck_name (name : string) (d : StudyDom) : StudyDom :=
  mkStudyDom (question_text d) (answer_text d)
             (answer_container d) (show_answer_btn d) (rating_buttons d)
             (progress_fill d) (progress_text d) name.

(** [!this.currentDeckId]: [null] and the empty string are falsy. *)
Definition truthy_deckId (o : option string) : option string :=
  match o with
  | Some s => if is_empty s then None else Some s
  | None => None
  end.

Section Knot.
Variable start : string -> App -> option Outcome.

Definition renderStudyView_with (st : App) : option Outcome :=
  match truthy_deckId (currentDeckId st) with
  | None =>
      Some (Returned (with_dom
        (study_message "Select a deck to begin studying"
                       "Select a deck to start studying" (dom st)) st))
  | Some deckId =>
      let no_cards name :=
        Some (Returned (with_dom
          (study_message
             "This deck has no cards. Add some cards to start studying."
             name (dom st)) st)) in
      match find_deck deckId st with
      | None => no_cards "Unknown Deck"
      | Some (_, deck) =>
          if length (deck_cards deck) =? 0 then no_cards (deck_name deck)
          else
            let started :=
              match currentStudySession st with
              | None => start deckId st
              | Some _ => Some (Returned st)
              end in
            (fun o => bind o nextCard) <$> started
      end
  end.

Definition switchView_with (viewName : View) (st : App) : option Outcome :=
  let st1 := with_view viewName st in
  match viewName with
  | DashboardView => Some (Returned st1)   (* renderDashboard: output only *)
  | DecksView => Some (Returned st1)       (* renderDecks: output only *)
  | StudyView => renderStudyView_with st1
  end.
End Knot.

Fixpoint startStudySession_fuel (fuel : nat) (deckId : string) (st : App)
  : option Outcome :=
  match fuel with
  | 0 => None
  | S fuel' =>
      match find_deck deckId st with
      | None => Some (Returned st)
      | Some (_, deck) =>
          if length (deck_cards deck) =? 0 then Some (Returned st)
          else
            let session := mkSession deckId (deck_cards deck) 0 in
            let st1 := mkApp (currentView st) (decks st) (Some session)
                             0 (Some deckId) (heap st)
                             (set_deck_name (deck_name deck) (dom st)) in
            (fun o => bind o nextCard)
              <$> switchView_with (startStudySession_fuel fuel') StudyView st1
      end
  end.

Definition startStudySession (deckId : string) (st : App) : Outcome :=
  default (Returned st) (startStudySession_fuel 1 deckId st).

Definition renderStudyView (st : App) : Outcome :=
  default (Returned st) (renderStudyView_with (startStudySession_fuel 1) st).

Definition switchView (viewName : View) (st : App) : Outcome :=
  default (Returned st) (switchView_with (startStudySession_fuel 1) viewName st).

(** [new AksonApp()] on an empty [localStorage], over a document whose
    study view shows [d]. *)
Definition newAksonApp (d : StudyDom) : App :=
  mkApp DashboardView [] None 0 None [] d.

(** ** Sequences of calls *)

Inductive Op :=
| AddDeck (name description : string) (now : Z)
| AddCard (deckId question answer : string) (now : Z)
| DeleteDeck (deckId : string) (confirmed : bool)
| SwitchView (viewName : View)
| StartStudySession (deckId : string)
| ShowAnswer
| RateCard (rating : JsValue) (now : Z).

Definition exec (op : Op) (st : App) : Outcome :=
  match op with
  | AddDeck name description now => Returned (handleAddDeck name description now st)
  | AddCard deckId q a now => Returned (handleAddCard deckId q a now st)
  | DeleteDeck deckId confirmed => Returned (deleteDeck deckId confirmed st)
  | SwitchView v => switchView v st
  | StartStudySession deckId => startStudySession deckId st
  | ShowAnswer => Returned (showAnswer st)
  | RateCard rating now => rateCard rating now st
  end.

(** An exception ends the handler that raised it; the application goes on
    from the state reached. *)
Fixpoint run (ops : list Op) (st : App) : App :=
  match ops with
  | [] => st
  | op :: ops' => run ops' (state_of (exec op st))
  end.

(** Rating the cards of a session one after the other. *)
Fixpoint rateAll (ratings : list (JsValue * Z)) (st : App) : Outcome :=
  match ratings with
  | [] => Returned st
  | (rating, now) :: rest => call st' := rateCard rating now st in rateAll rest st'
  end.

(** ** Well-formed stores

    Every element of a [cards] array is a card object: no reference
    dangles. *)
Definition valid_refs (h : list Card) (rs : list Ref) : Prop :=
  Forall (fun r => r < length h) rs.

Definition wf (st : App) : Prop :=
  Forall (fun d => valid_refs (heap st) (deck_cards d)) (decks st) /\
  (forall s, currentStudySession st = Some s ->
             valid_refs (heap st) (session_cards s)).

(** A session is active when [nextCard] would show a card. *)
Definition active (st : App) : Prop := session_completed st = false.

(** ** A worked example *)

Definition blank : StudyDom :=
  mkStudyDom "" "" DisplayNone DisplayNone DisplayNone 0%Q "" "".

Definition demo_one : App :=
  run [AddDeck "Anatomy" "" 1000; AddCard "1000" "Q1" "A1" 2000]
      (newAksonApp blank).

Definition demo_two : App :=
  run [AddCard "1000" " Q2 " "A2" 3000] demo_one.

Definition demo_empty : App :=
  run [AddDeck "Anatomy" "" 1000] (newAksonApp blank).

(** ** States and views used in the statements *)

(** The state [rateCard] hands to [nextCard]. *)
Definition rated (s : Session) (r : Ref) (card : Card) (now : Z) (st : App)
  : App :=
  mkApp (currentView st) (decks st)
        (Some (mkSession (session_deckId s) (session_cards s)
                         (S (currentIndex s))))
        (currentCardIndex st) (currentDeckId st)
        (<[r := set_lastReviewed now card]> (heap st)) (dom st).

(** The state in which [startStudySession] calls [switchView]. *)
Definition starting (deckId : string) (deck : Deck) (st : App) : App :=
  mkApp (currentView st) (decks st)
        (Some (mkSession deckId (deck_cards deck) 0))
        0 (Some deckId) (heap st)
        (set_deck_name (deck_name deck) (dom st)).

(** The reference under the cursor. *)
Definition current_ref (st : App) : option Ref :=
  s ← currentStudySession st; session_cards s !! currentIndex s.

(** The cards of the deck [startStudySession] finds, none when there is no
    such deck: the guard [!deck || deck.cards.length === 0] is
    [deck_cards_of deckId st = []]. *)
Definition deck_cards_of (deckId : string) (st : App) : list Ref :=
  match find_deck deckId st with
  | Some (_, deck) => deck_cards deck
  | None => []
  end.


(** The cards of a deck, in order. *)
Definition deck_view (deckId : string) (st : App) : list (option Card) :=
  (heap st !!.) <$> deck_cards_of deckId st.

(** ** The scheduling fields of a card *)

(** The bounds of the scheduling fields. *)
Definition schedule_bounds (c : Card) : Prop :=
  (13 # 10 <= easeFactor c)%Q /\ (0 <= interval c)%Z /\ (0 <= repetitions c)%Z.

(** The scheduling fields as [handleAddCard] sets them. *)
Definition schedule_initial (c : Card) : Prop :=
  interval c = 0%Z /\ easeFactor c = (5 # 2)%Q /\ repetitions c = 0%Z.

(** [c'] has the scheduling fields of [c]. *)
Definition same_schedule (c c' : Card) : Prop :=
  interval c' = interval c /\ easeFactor c' = easeFactor c /\
  repetitions c' = repetitions c /\ nextReview c' = nextReview c.

(** ** The scheduler of the specification *)

(** The scheduling update as the specification words it, for comparison
    with what [rateCard] does.  [c] is the card before the rating, [c']
    the card after it. *)
Definition ms_per_day : Z := 86400000.

(** [Math.round]. *)
Definition round (q : Q) : Z := Qfloor (q + (1 # 2))%Q.

(** The rating good, rating = 3. *)
Definition spec_good (c : Card) (now : Z) (c' : Card) : Prop :=
  repetitions c' = (repetitions c + 1)%Z /\
  easeFactor c' = easeFactor c /\
  interval c' = (if (repetitions c' =? 1)%Z then 1%Z
                 else round (inject_Z (interval c) * easeFactor c)%Q) /\
  nextReview c' = (now + interval c' * ms_per_day)%Z.

(** The rating again, rating = 1. *)
Definition spec_again (c : Card) (now : Z) (c' : Card) : Prop :=
  repetitions c' = 0%Z /\
  interval c' = 0%Z /\
  (easeFactor c' == Qmax (13 # 10) (easeFactor c - (2 # 10)))%Q /\
  nextReview c' = now.

(** ** Edits of the decks *)



(** The calls that edit the decks. *)
Definition edits_decks (op : Op) : bool :=
  match op with
  | AddDeck _ _ _ | AddCard _ _ _ _ | DeleteDeck _ _ => true
  | _ => false
  end.

(** ** Started sessions of the worked example *)

Definition demo_started : App := state_of (startStudySession "1000" demo_two).

Definition demo_started_one : App :=
  state_of (startStudySession "1000" demo_one).

(** Well-formedness of a concrete state, by evaluation. *)
Ltac solve_wf :=
  split;
  [ vm_compute; repeat constructor
  | let s := fresh in let H := fresh in
    intros s H; vm_compute in H;
    first [ discriminate H
          | injection H as <-; vm_compute; repeat constructor ] ].

(** ** The dashboard: [renderDashboard]

    The three statistics and the list of recent decks; what is written to
    the document is these values. *)

(** The card objects of a deck, as [deck.cards.forEach] visits them. *)
Definition deck_card_objects (st : App) (deck : Deck) : list Card :=
  omap (heap st !!.) (deck_cards deck).

Definition total_decks (st : App) : nat := length (decks st).

(** [n || 0] on a number. *)
Definition or_zero (z : Z) : Z := if (z =? 0)%Z then 0%Z else z.

Definition totalReviews (st : App) : Z :=
  fold_left (fun total deck =>
               fold_left (fun total card => (total + or_zero (repetitions card))%Z)
                         (deck_card_objects st deck) total)
            (decks st) 0%Z.

(** [card.easeFactor > 2.0]. *)
Definition ease_above_two (card : Card) : bool := negb (Qle_bool (easeFactor card) 2).

Definition successfulReviews (st : App) : Z :=
  fold_left (fun n deck =>
               fold_left (fun n card => if ease_above_two card then (n + 1)%Z else n)
                         (deck_card_objects st deck) n)
            (decks st) 0%Z.

(** The retention rate, in percent.  The quotient is the exact one; the
    browser computes it in floating point. *)
Definition retentionRate (st : App) : Z :=
  if (0 <? totalReviews st)%Z then
    round (inject_Z (successfulReviews st) / inject_Z (totalReviews st) * 100)%Q
  else 0%Z.

(** [[...this.decks].sort((a, b) => new Date(b.createdAt) - new
    Date(a.createdAt)).slice(0, 3)]: the sort is on a copy, newest first,
    and stable. *)
Fixpoint insert_recent (d : Deck) (l : list Deck) : list Deck :=
  match l with
  | [] => [d]
  | x :: l' =>
      if (deck_createdAt x <=? deck_createdAt d)%Z then d :: l
      else x :: insert_recent d l'
  end.

Fixpoint sort_recent (l : list Deck) : list Deck :=
  match l with
  | [] => []
  | d :: l' => insert_recent d (sort_recent l')
  end.

Definition recentDecks (st : App) : list Deck := take 3 (sort_recent (decks st)).

(** ** Persistence: [saveDecks], [loadDecks] and the constructor

    The text [JSON.stringify(this.decks)] is represented by what it
    encodes: the decks in order, each with its cards by value. *)

Record StoredDeck := mkStoredDeck {
  stored_id : string;
  stored_name : string;
  stored_description : string;
  stored_createdAt : Z;
  stored_cards : list Card
}.

(** The value [saveDecks] puts under the key [akson_decks]. *)
Definition saveDecks (st : App) : list StoredDeck :=
  map (fun deck => mkStoredDeck (deck_id deck) (deck_name deck)
                                (deck_description deck) (deck_createdAt deck)
                                (deck_card_objects st deck))
      (decks st).

(** [JSON.parse]: every card of the text becomes a new object. *)
Fixpoint parse_decks (h : list Card) (saved : list StoredDeck)
  : list Deck * list Card :=
  match saved with
  | [] => ([], h)
  | d :: saved' =>
      let refs := seq (length h) (length (stored_cards d)) in
      let '(ds, h') := parse_decks (h ++ stored_cards d) saved' in
      (mkDeck (stored_id d) (stored_name d) (stored_description d)
              (stored_createdAt d) refs :: ds, h')
  end.

(** [saved ? JSON.parse(saved) : []], with [saved] the item of
    [localStorage], [None] when there is none. *)
Definition loadDecks (saved : option (list StoredDeck)) : list Deck * list Card :=
  match saved with
  | Some text => parse_decks [] text
  | None => ([], [])
  end.

(** [new AksonApp()] over a storage holding [saved]. *)
Definition constructor (saved : option (list StoredDeck)) (d : StudyDom) : App :=
  let '(ds, h) := loadDecks saved in
  mkApp DashboardView ds None 0 None h d.

(** Whether a call reaches its [this.saveDecks()]: [handleAddDeck] and
    [handleAddCard] return before it on a blank field or an unknown deck,
    [deleteDeck] when the dialog is cancelled; no other method saves. *)
Definition saves (op : Op) (st : App) : bool :=
  match op with
  | AddDeck name _ _ => negb (is_empty (trim name))
  | AddCard deckId q a _ =>
      negb (is_empty (trim q) || is_empty (trim a)) &&
      match find_deck deckId st with Some _ => true | None => false end
  | DeleteDeck _ confirmed => confirmed
  | _ => false
  end.

(** A call on the application together with the item of [localStorage]. *)
Definition exec_stored (op : Op) (page : App * option (list StoredDeck))
  : App * option (list StoredDeck) :=
  let st' := state_of (exec op (fst page)) in
  (st', if saves op (fst page) then Some (saveDecks st') else snd page).

Fixpoint run_stored (ops : list Op) (page : App * option (list StoredDeck))
  : App * option (list StoredDeck) :=
  match ops with
  | [] => page
  | op :: ops' => run_stored ops' (exec_stored op page)
  end.

(** A card, and a stored deck, without the time of the last review. *)
Definition forget_review (c : Card) : Card :=
  mkCard (card_id c) (question c) (answer c) (card_createdAt c)
         (nextReview c) (interval c) (easeFactor c) (repetitions c) None.

Definition forget_reviews (sd : StoredDeck) : StoredDeck :=
  mkStoredDeck (stored_id sd) (stored_name sd) (stored_description sd)
               (stored_createdAt sd) (map forget_review (stored_cards sd)).

(** ** Invariants of the application state *)

(** All the references held by the decks, deck after deck. *)
Definition deck_refs (st : App) : list Ref := concat (map deck_cards (decks st)).

(** The session and the fields [startStudySession] sets with it. *)
Definition session_inv (st : App) : Prop :=
  currentCardIndex st = 0 /\
  match currentStudySession st with
  | None => currentDeckId st = None
  | Some s =>
      currentDeckId st = Some (session_deckId s) /\
      session_cards s <> [] /\
      currentIndex s <= length (session_cards s)
  end.

(** No blank text is stored. *)
Definition texts_inv (st : App) : Prop :=
  Forall (fun deck => deck_name deck <> "") (decks st) /\
  Forall (fun card => question card <> "" /\ answer card <> "") (heap st).

(** * Properties *)

(** ** [nextCard] touches the document only *)

Lemma nextCard_done st :
  session_completed st = true ->
  nextCard st = Returned (with_dom (show_completed (dom st)) st).
Proof. intros H. unfold nextCard. by rewrite H. Qed.

Lemma nextCard_shows st s r card :
  currentStudySession st = Some s ->
  session_cards s !! currentIndex s = Some r ->
  heap st !! r = Some card ->
  nextCard st =
  Returned (with_dom (show_question card (currentIndex s)
                        (length (session_cards s)) (dom st)) st).
Proof.
  intros Hs Hr Hc. unfold nextCard, session_completed. rewrite Hs.
  apply lookup_lt_Some in Hr as Hlt.
  destruct (length (session_cards s) <=? currentIndex s) eqn:E.
  - apply Nat.leb_le in E. lia.
  - cbn. rewrite Hr. cbn. by rewrite Hc.
Qed.

Lemma nextCard_state st : exists d, state_of (nextCard st) = with_dom d st.
Proof.
  unfold nextCard. destruct (session_completed st); [by eexists|].
  destruct st as [v ds [s|] ci di h d]; simpl; [|by exists d].
  destruct (session_cards s !! currentIndex s ≫= _); simpl; by eexists.
Qed.

Lemma with_dom_with_dom d d' st : with_dom d (with_dom d' st) = with_dom d st.
Proof. reflexivity. Qed.

(** ** References stay valid *)

Lemma wf_lookup st s i r :
  wf st -> currentStudySession st = Some s -> session_cards s !! i = Some r ->
  exists card, heap st !! r = Some card.
Proof.
  intros [_ Hs] E Hr. specialize (Hs s E).
  unfold valid_refs in Hs. rewrite Forall_lookup in Hs.
  apply lookup_lt_is_Some. eauto.
Qed.

Lemma active_cursor st :
  active st ->
  exists s r, currentStudySession st = Some s /\
              session_cards s !! currentIndex s = Some r.
Proof.
  unfold active, session_completed. destruct (currentStudySession st) as [s|]; [|done].
  intros E. apply Nat.leb_gt in E.
  destruct (lookup_lt_is_Some_2 (session_cards s) (currentIndex s) E) as [r Hr].
  eauto.
Qed.

Lemma wf_with_dom d st : wf st -> wf (with_dom d st).
Proof. by intros H. Qed.

Lemma wf_with_view v st : wf st -> wf (with_view v st).
Proof. by intros H. Qed.

Lemma valid_refs_mono h h' rs :
  length h <= length h' -> valid_refs h rs -> valid_refs h' rs.
Proof.
  intros Hl H. eapply Forall_impl; [exact H|]. intros r Hr. simpl in *. lia.
Qed.

Lemma wf_state_of_nextCard st : wf st -> wf (state_of (nextCard st)).
Proof. intros H. destruct (nextCard_state st) as [d ->]. by apply wf_with_dom. Qed.

(** ** One rating *)

Lemma rateCard_unfold st s r card rating now :
  currentStudySession st = Some s ->
  session_cards s !! currentIndex s = Some r ->
  heap st !! r = Some card ->
  rateCard rating now st = nextCard (rated s r card now st).
Proof. intros Hs Hr Hc. unfold rateCard. by rewrite Hs, Hr, Hc. Qed.

Lemma rateCard_step st s r card rating now :
  wf st ->
  currentStudySession st = Some s ->
  session_cards s !! currentIndex s = Some r ->
  heap st !! r = Some card ->
  exists d,
    rateCard rating now st = Returned (with_dom d (rated s r card now st)) /\
    ((length (session_cards s) <= S (currentIndex s) /\
      d = show_completed (dom st)) \/
     (S (currentIndex s) < length (session_cards s) /\
      exists next, d = show_question next (S (currentIndex s))
                                     (length (session_cards s)) (dom st))).
Proof.
  intros Hwf Hs Hr Hc. rewrite (rateCard_unfold _ _ _ _ _ _ Hs Hr Hc).
  destruct (le_lt_dec (length (session_cards s)) (S (currentIndex s))) as [Hle|Hlt].
  - exists (show_completed (dom st)). split; [|by left].
    rewrite nextCard_done; [done|].
    unfold session_completed, rated; simpl. by apply Nat.leb_le.
  - destruct (lookup_lt_is_Some_2 _ _ Hlt) as [r2 Hr2].
    destruct (wf_lookup _ _ _ _ Hwf Hs Hr2) as [c2 Hc2].
    assert (exists next, <[r := set_lastReviewed now card]> (heap st) !! r2 = Some next)
      as [next Hnext].
    { apply lookup_lt_is_Some. rewrite length_insert.
      apply lookup_lt_is_Some. eauto. }
    exists (show_question next (S (currentIndex s)) (length (session_cards s)) (dom st)).
    split; [|right; eauto].
    by rewrite (nextCard_shows (rated s r card now st) _ r2 next eq_refl Hr2 Hnext).
Qed.

(** A session that is over is still a session: [rateCard] passes its
    guard, finds no card under the cursor and fails on [card.lastReviewed]
    before it has changed anything. *)
Lemma rateCard_after_completion st s rating now :
  currentStudySession st = Some s ->
  length (session_cards s) <= currentIndex s ->
  rateCard rating now st = Threw TypeError st.
Proof.
  intros Hs Hle. unfold rateCard. rewrite Hs.
  by rewrite (lookup_ge_None_2 _ _ Hle).
Qed.

Lemma wf_rated st s r card now :
  wf st -> currentStudySession st = Some s -> wf (rated s r card now st).
Proof.
  intros [Hd Hs] E. split; simpl.
  - eapply Forall_impl; [exact Hd|]. intros d. apply valid_refs_mono.
    by rewrite length_insert.
  - intros s' [= <-]. simpl. eapply valid_refs_mono; [|by apply Hs].
    by rewrite length_insert.
Qed.

(** ** Starting a session *)

Lemma find_deck_from_lookup k deckId ds i d :
  find_deck_from k deckId ds = Some (i, d) ->
  k <= i /\ ds !! (i - k) = Some d /\ String.eqb (deck_id d) deckId = true.
Proof.
  revert k. induction ds as [|d0 ds IH]; intros k; simpl; [done|].
  destruct (String.eqb (deck_id d0) deckId) eqn:E.
  - intros [= <- <-]. rewrite Nat.sub_diag. auto.
  - intros H. destruct (IH _ H) as (Hle & Hl & He).
    split; [lia|]. split; [|done].
    replace (i - k) with (S (i - S k)) by lia. done.
Qed.

Lemma find_deck_lookup deckId st i d :
  find_deck deckId st = Some (i, d) -> decks st !! i = Some d.
Proof.
  intros H. apply find_deck_from_lookup in H as (_ & H & _).
  by rewrite Nat.sub_0_r in H.
Qed.

Lemma wf_deck st i d :
  wf st -> decks st !! i = Some d -> valid_refs (heap st) (deck_cards d).
Proof. intros [H _] Hd. rewrite Forall_lookup in H. eauto. Qed.

Lemma length_eqb_0 {A} (l : list A) : (length l =? 0) = false <-> l <> [].
Proof. destruct l; simpl; split; intros; congruence. Qed.

(** One unit of fuel is enough: the nested call is never made, because
    the session exists by the time [renderStudyView] looks for it. *)
Lemma startStudySession_fuel_enough n deckId st :
  startStudySession_fuel (S n) deckId st = Some (startStudySession deckId st).
Proof.
  unfold startStudySession. simpl.
  destruct (find_deck deckId st) as [[i deck]|] eqn:Hf; [|done].
  destruct (length (deck_cards deck) =? 0) eqn:He; [done|].
  unfold switchView_with, renderStudyView_with. simpl.
  destruct (is_empty deckId); [done|].
  unfold find_deck in *. simpl. rewrite Hf, He. done.
Qed.

Lemma renderStudyView_fuel_enough n st :
  renderStudyView_with (startStudySession_fuel (S n)) st
  = Some (renderStudyView st).
Proof.
  unfold renderStudyView, renderStudyView_with.
  destruct (truthy_deckId (currentDeckId st)) as [deckId|]; [|done].
  destruct (find_deck deckId st) as [[i deck]|]; [|done].
  destruct (length (deck_cards deck) =? 0); [done|].
  destruct (currentStudySession st); [done|].
  by rewrite !startStudySession_fuel_enough.
Qed.

Lemma switchView_fuel_enough n v st :
  switchView_with (startStudySession_fuel (S n)) v st = Some (switchView v st).
Proof.
  unfold switchView, switchView_with. destruct v; try done.
  rewrite !renderStudyView_fuel_enough. done.
Qed.

Lemma startStudySession_skip deckId st :
  match find_deck deckId st with
  | Some (_, deck) => deck_cards deck = []
  | None => True
  end ->
  startStudySession deckId st = Returned st.
Proof.
  unfold startStudySession. simpl.
  destruct (find_deck deckId st) as [[i deck]|]; [|done].
  by intros ->.
Qed.

Lemma startStudySession_started deckId st i deck :
  wf st ->
  find_deck deckId st = Some (i, deck) ->
  deck_cards deck <> [] ->
  exists r card name,
    deck_cards deck !! 0 = Some r /\ heap st !! r = Some card /\
    startStudySession deckId st =
    Returned (with_dom
                (show_question card 0 (length (deck_cards deck))
                   (set_deck_name name (dom st)))
                (with_view StudyView (starting deckId deck st))).
Proof.
  intros Hwf Hf Hne.
  destruct (deck_cards deck) as [|r rs] eqn:Hcards; [done|].
  pose proof (wf_deck _ _ _ Hwf (find_deck_lookup _ _ _ _ Hf)) as Hv.
  rewrite Hcards in Hv. apply Forall_cons in Hv as [Hr _].
  destruct (lookup_lt_is_Some_2 _ _ Hr) as [card Hc].
  set (st1 := with_view StudyView (starting deckId deck st)).
  assert (Hshow : forall d,
    nextCard (with_dom d st1) =
    Returned (with_dom (show_question card 0 (length (deck_cards deck)) d) st1)).
  { intros d.
    rewrite (nextCard_shows (with_dom d st1) _ r card eq_refl); simpl;
      rewrite ?Hcards; done. }
  assert (H1 : nextCard st1 =
    Returned (with_dom (show_question card 0 (length (deck_cards deck))
                          (dom st1)) st1)) by exact (Hshow (dom st1)).
  unfold startStudySession. simpl. rewrite Hf, Hcards. simpl.
  unfold switchView_with, renderStudyView_with. simpl.
  destruct (is_empty deckId).
  - exists r, card, "Select a deck to start studying". repeat split; try done.
    cbn [fmap option_fmap option_map default bind].
    rewrite <- Hcards. fold (starting deckId deck st).
    change (with_view StudyView (starting deckId deck st)) with st1.
    rewrite (Hshow _), Hcards. done.
  - exists r, card, (deck_name deck). repeat split; try done.
    unfold find_deck in *. simpl. rewrite Hf, Hcards. simpl.
    rewrite <- Hcards. fold (starting deckId deck st).
    change (with_view StudyView (starting deckId deck st)) with st1.
    rewrite H1. cbn [bind]. rewrite (Hshow _), Hcards. done.
Qed.

(** ** What each call does to the store of cards *)

Lemma heap_nextCard st : heap (state_of (nextCard st)) = heap st.
Proof. by destruct (nextCard_state st) as [d ->]. Qed.

Lemma heap_bind_nextCard o :
  heap (state_of (bind o nextCard)) = heap (state_of o).
Proof. destruct o; simpl; [apply heap_nextCard|done]. Qed.

Lemma heap_startStudySession deckId st :
  heap (state_of (startStudySession deckId st)) = heap st.
Proof.
  unfold startStudySession. simpl.
  destruct (find_deck deckId st) as [[i deck]|] eqn:Hf; [|done].
  destruct (length (deck_cards deck) =? 0) eqn:He; [done|].
  unfold switchView_with, renderStudyView_with. simpl.
  destruct (is_empty deckId); simpl.
  - rewrite heap_nextCard. reflexivity.
  - unfold find_deck in *. simpl. rewrite Hf, He. simpl.
    rewrite !heap_bind_nextCard, heap_nextCard. reflexivity.
Qed.

Lemma heap_renderStudyView st : heap (state_of (renderStudyView st)) = heap st.
Proof.
  unfold renderStudyView, renderStudyView_with.
  destruct (truthy_deckId (currentDeckId st)) as [deckId|]; [|done].
  destruct (find_deck deckId st) as [[i deck]|]; [|done].
  destruct (length (deck_cards deck) =? 0); [done|].
  destruct (currentStudySession st).
  - simpl. apply heap_nextCard.
  - rewrite (startStudySession_fuel_enough 0). simpl.
    by rewrite heap_bind_nextCard, heap_startStudySession.
Qed.

Lemma heap_switchView v st : heap (state_of (switchView v st)) = heap st.
Proof.
  unfold switchView, switchView_with. destruct v; try done.
  rewrite (renderStudyView_fuel_enough 0). simpl.
  apply (heap_renderStudyView (with_view StudyView st)).
Qed.

Lemma heap_handleAddCard deckId q a now st :
  heap (handleAddCard deckId q a now st) = heap st \/
  heap (handleAddCard deckId q a now st) = (heap st ++ [newCard q a now])%list.
Proof.
  unfold handleAddCard.
  destruct (is_empty (trim q) || is_empty (trim a)); [by left|].
  destruct (find_deck deckId st) as [[i deck]|]; [by right|by left].
Qed.

Lemma heap_rateCard rating now st :
  heap (state_of (rateCard rating now st)) = heap st \/
  exists r card, heap st !! r = Some card /\
    heap (state_of (rateCard rating now st))
    = <[r := set_lastReviewed now card]> (heap st).
Proof.
  unfold rateCard. destruct (currentStudySession st) as [s|]; [|by left].
  destruct (session_cards s !! currentIndex s) as [r|]; [|by left].
  destruct (heap st !! r) as [card|] eqn:Hc; [|by left].
  right. exists r, card. split; [done|]. by rewrite heap_nextCard.
Qed.

(** A property of cards that creation establishes and that a change of
    [lastReviewed] keeps holds of every card, whatever is called. *)
Section CardInvariant.
Variable P : Card -> Prop.
Hypothesis P_new : forall q a now, P (newCard q a now).
Hypothesis P_reviewed : forall t c, P c -> P (set_lastReviewed t c).

Lemma exec_keeps op st :
  Forall P (heap st) -> Forall P (heap (state_of (exec op st))).
Proof using P_new P_reviewed.
  intros H.
  destruct op as [name descr now|deckId q a now|deckId confirmed|v|deckId|
                 |rating now]; simpl; try done.
  - unfold handleAddDeck. by destruct (is_empty _).
  - destruct (heap_handleAddCard deckId q a now st) as [->| ->];
      [done|]. apply Forall_app; split; [done|]. by constructor.
  - unfold deleteDeck. by destruct confirmed.
  - by rewrite heap_switchView.
  - by rewrite heap_startStudySession.
  - destruct (heap_rateCard rating now st) as [->|(r & card & Hc & ->)];
      [done|].
    apply Forall_insert; [done|]. apply P_reviewed.
    rewrite Forall_lookup in H. eauto.
Qed.

Lemma run_keeps ops st :
  Forall P (heap st) -> Forall P (heap (run ops st)).
Proof using P_new P_reviewed.
  revert st. induction ops as [|op ops IH]; intros st H; simpl; [done|].
  by apply IH, exec_keeps.
Qed.
End CardInvariant.

Lemma schedule_initial_bounds c : schedule_initial c -> schedule_bounds c.
Proof.
  intros (Hi & He & Hr). unfold schedule_bounds. rewrite Hi, He, Hr.
  repeat split; try lia. unfold Qle. simpl. lia.
Qed.

(** ** No call leaves a dangling reference *)

Lemma wf_handleAddDeck name descr now st :
  wf st -> wf (handleAddDeck name descr now st).
Proof.
  intros [Hd Hs]. unfold handleAddDeck. destruct (is_empty _); [done|].
  split; [|done]. simpl. apply Forall_app. split; [done|].
  repeat constructor.
Qed.

Lemma wf_handleAddCard deckId q a now st :
  wf st -> wf (handleAddCard deckId q a now st).
Proof.
  intros Hwf. unfold handleAddCard.
  destruct (is_empty (trim q) || is_empty (trim a)); [done|].
  destruct (find_deck deckId st) as [[i deck]|] eqn:Hf; [|done].
  pose proof (wf_deck _ _ _ Hwf (find_deck_lookup _ _ _ _ Hf)) as Hv.
  destruct Hwf as [Hd Hs].
  assert (Hlen : length (heap st) <= length (heap st ++ [newCard q a now]))
    by (rewrite length_app; lia).
  split; simpl.
  - apply Forall_insert.
    + eapply Forall_impl; [exact Hd|]. intros d. by apply valid_refs_mono.
    + unfold valid_refs, push_card. simpl. apply Forall_app. split.
      * by apply (valid_refs_mono (heap st)).
      * constructor; [|constructor]. rewrite length_app. simpl. lia.
  - intros s E. by apply (valid_refs_mono (heap st)), Hs.
Qed.

Lemma wf_deleteDeck deckId confirmed st :
  wf st -> wf (deleteDeck deckId confirmed st).
Proof.
  intros [Hd Hs]. unfold deleteDeck. destruct confirmed; [|done].
  split; [|done]. simpl. rewrite List.Forall_forall in *.
  intros d Hin. apply List.filter_In in Hin as [Hin _]. auto.
Qed.

Lemma wf_bind_nextCard o : wf (state_of o) -> wf (state_of (bind o nextCard)).
Proof. destruct o; simpl; [apply wf_state_of_nextCard|done]. Qed.

Lemma wf_starting deckId st i deck :
  wf st -> find_deck deckId st = Some (i, deck) -> wf (starting deckId deck st).
Proof.
  intros Hwf Hf.
  pose proof (wf_deck _ _ _ Hwf (find_deck_lookup _ _ _ _ Hf)) as Hv.
  destruct Hwf as [Hd _]. split; [done|]. by intros s [= <-].
Qed.

Lemma wf_startStudySession deckId st :
  wf st -> wf (state_of (startStudySession deckId st)).
Proof.
  intros Hwf.
  destruct (find_deck deckId st) as [[i deck]|] eqn:Hf.
  - destruct (deck_cards deck) as [|r rs] eqn:Hc.
    + rewrite startStudySession_skip; [done|]. by rewrite Hf.
    + destruct (startStudySession_started deckId st i deck Hwf Hf)
        as (r' & card & name & _ & _ & ->); [by rewrite Hc|].
      simpl. by apply wf_with_dom, wf_with_view, (wf_starting _ _ i).
  - rewrite startStudySession_skip; [done|]. by rewrite Hf.
Qed.

Lemma wf_renderStudyView st : wf st -> wf (state_of (renderStudyView st)).
Proof.
  intros Hwf. unfold renderStudyView, renderStudyView_with.
  destruct (truthy_deckId (currentDeckId st)) as [deckId|]; [|done].
  destruct (find_deck deckId st) as [[i deck]|]; [|done].
  destruct (length (deck_cards deck) =? 0); [done|].
  destruct (currentStudySession st) eqn:Hs.
  - simpl. by apply wf_state_of_nextCard.
  - rewrite (startStudySession_fuel_enough 0). simpl.
    by apply wf_bind_nextCard, wf_startStudySession.
Qed.

Lemma wf_switchView v st : wf st -> wf (state_of (switchView v st)).
Proof.
  intros Hwf. unfold switchView, switchView_with. destruct v; try done.
  rewrite (renderStudyView_fuel_enough 0). simpl.
  by apply wf_renderStudyView, wf_with_view.
Qed.

Lemma wf_rateCard rating now st :
  wf st -> wf (state_of (rateCard rating now st)).
Proof.
  intros Hwf. unfold rateCard.
  destruct (currentStudySession st) as [s|] eqn:Hs; [|done].
  destruct (session_cards s !! currentIndex s) as [r|]; [|done].
  destruct (heap st !! r) as [card|]; [|done].
  apply wf_state_of_nextCard, (wf_rated st s r card now Hwf Hs).
Qed.

Lemma wf_exec op st : wf st -> wf (state_of (exec op st)).
Proof.
  intros Hwf.
  destruct op as [name descr now|deckId q a now|deckId confirmed|v|deckId|
                 |rating now]; simpl.
  - by apply wf_handleAddDeck.
  - by apply wf_handleAddCard.
  - by apply wf_deleteDeck.
  - by apply wf_switchView.
  - by apply wf_startStudySession.
  - done.
  - by apply wf_rateCard.
Qed.

Lemma wf_run ops st : wf st -> wf (run ops st).
Proof.
  revert st. induction ops as [|op ops IH]; intros st H; simpl; [done|].
  by apply IH, wf_exec.
Qed.

Lemma wf_newAksonApp d : wf (newAksonApp d).
Proof. split; [constructor|done]. Qed.

(** Every state the application reaches is well formed. *)
Lemma wf_reachable d ops : wf (run ops (newAksonApp d)).
Proof. apply wf_run, wf_newAksonApp. Qed.

(** ** Claims about [rateCard] *)

(** What a rating does to the card under the cursor, whatever the rating. *)
Lemma rateCard_card st rating now :
  wf st -> active st ->
  exists s r card st',
    currentStudySession st = Some s /\
    session_cards s !! currentIndex s = Some r /\
    heap st !! r = Some card /\
    rateCard rating now st = Returned st' /\
    heap st' = <[r := set_lastReviewed now card]> (heap st) /\
    heap st' !! r = Some (set_lastReviewed now card) /\
    currentStudySession st' =
      Some (mkSession (session_deckId s) (session_cards s) (S (currentIndex s))) /\
    decks st' = decks st /\ currentView st' = currentView st /\
    currentCardIndex st' = currentCardIndex st /\
    currentDeckId st' = currentDeckId st.
Proof.
  intros Hwf Hact.
  destruct (active_cursor st Hact) as (s & r & Hs & Hr).
  destruct (wf_lookup _ _ _ _ Hwf Hs Hr) as [card Hc].
  destruct (rateCard_step st s r card rating now Hwf Hs Hr Hc) as (d & -> & _).
  exists s, r, card. eexists. repeat split; try done. simpl.
  apply list_lookup_insert_eq. by apply lookup_lt_is_Some.
Qed.

(** C3. With an active session, [rateCard] returns normally whatever the
    rating; of the card under the cursor it changes [lastReviewed] alone,
    which becomes the current time, while [interval], [easeFactor],
    [repetitions], [nextReview] and the content of the card stay as they
    were; every other card is untouched; the cursor of the session moves
    forward by exactly one and its list of cards, the decks and the other
    fields of the application are unchanged. *)
Theorem rateCard_changes_lastReviewed_and_cursor st rating now :
  wf st -> active st ->
  exists s r card st' card',
    currentStudySession st = Some s /\
    session_cards s !! currentIndex s = Some r /\
    heap st !! r = Some card /\
    rateCard rating now st = Returned st' /\
    heap st' !! r = Some card' /\
    lastReviewed card' = Some now /\
    same_schedule card card' /\
    card_id card' = card_id card /\ question card' = question card /\
    answer card' = answer card /\ card_createdAt card' = card_createdAt card /\
    (forall r', r' <> r -> heap st' !! r' = heap st !! r') /\
    currentStudySession st' =
      Some (mkSession (session_deckId s) (session_cards s) (currentIndex s + 1)) /\
    decks st' = decks st /\ currentView st' = currentView st /\
    currentCardIndex st' = currentCardIndex st /\
    currentDeckId st' = currentDeckId st.
Proof.
  intros Hwf Hact.
  destruct (rateCard_card st rating now Hwf Hact)
    as (s & r & card & st' & Hs & Hr & Hc & Hrate & Hh & Hrc & Hs' & Hrest).
  exists s, r, card, st', (set_lastReviewed now card).
  rewrite Nat.add_1_r. repeat split; try done; try tauto.
  intros r' Hne. rewrite Hh. by apply list_lookup_insert_ne.
Qed.

Lemma rateCard_changes_lastReviewed_and_cursor_witness :
  wf demo_started /\ active demo_started /\
  exists st', rateCard rating_hard 5000 demo_started = Returned st' /\
              currentStudySession st' = Some (mkSession "1000" [0; 1] 1) /\
              (lastReviewed <$> heap st' !! 0) = Some (Some 5000%Z) /\
              (interval <$> heap st' !! 0) = Some 0%Z.
Proof.
  assert (Hwf : wf demo_started) by solve_wf.
  assert (Hact : active demo_started) by reflexivity.
  split; [exact Hwf|]. split; [exact Hact|].
  destruct (rateCard_changes_lastReviewed_and_cursor demo_started rating_hard
              5000 Hwf Hact)
    as (s & r & card & st' & card' & Hs & Hr & Hc & Hrate & Hc' & Hl & Hsame
        & _ & _ & _ & _ & _ & Hs' & _).
  vm_compute in Hs. injection Hs as <-.
  vm_compute in Hr. injection Hr as <-.
  vm_compute in Hc. injection Hc as <-.
  exists st'. split; [exact Hrate|]. split; [exact Hs'|].
  rewrite Hc'. simpl. rewrite Hl. destruct Hsame as [-> _]. split; reflexivity.
Defined.

(** C10. Without a session ([currentStudySession] is [null]) [rateCard]
    returns normally and the whole state, cards, session and document
    included, is what it was. *)
Theorem rateCard_without_session st rating now :
  currentStudySession st = None -> rateCard rating now st = Returned st.
Proof. intros H. unfold rateCard. by rewrite H. Qed.

Lemma rateCard_without_session_witness :
  currentStudySession demo_two = None /\
  rateCard rating_good 5000 demo_two = Returned demo_two.
Proof.
  split; [reflexivity|].
  apply (rateCard_without_session demo_two rating_good 5000). reflexivity.
Defined.

(** C1, as stated, fails: the card [{interval: 0, easeFactor: 2.5,
    repetitions: 0}] rated good keeps [repetitions] 0 and [interval] 0, and
    a second good rating, in a second session, leaves it the same again. *)
Lemma rateCard_good_counterexample :
  let card0 := newCard "Q1" "A1" 2000 in
  heap demo_started_one !! 0 = Some card0 /\
  schedule_initial card0 /\
  exists st1 card1 st2 card2,
    rateCard rating_good 5000 demo_started_one = Returned st1 /\
    heap st1 !! 0 = Some card1 /\
    repetitions card1 = 0%Z /\ interval card1 = 0%Z /\
    nextReview card1 = 2000%Z /\
    ~ spec_good card0 5000 card1 /\
    rateCard rating_good 6000 (state_of (startStudySession "1000" st1))
      = Returned st2 /\
    heap st2 !! 0 = Some card2 /\
    repetitions card2 = 0%Z /\ interval card2 = 0%Z /\
    ~ spec_good card1 6000 card2.
Proof.
  split; [reflexivity|]. split; [by repeat split|].
  eexists _, _, _, _.
  split; [vm_compute; reflexivity|]. split; [reflexivity|].
  repeat (split; [reflexivity|]).
  split; [intros (H & _); vm_compute in H; discriminate H|].
  split; [vm_compute; reflexivity|]. split; [reflexivity|].
  repeat (split; [reflexivity|]).
  intros (H & _); vm_compute in H; discriminate H.
Qed.

(** C1, amended. With an active session, rating the card under the cursor
    good returns normally, sets [lastReviewed] to the current time and
    leaves [repetitions], [easeFactor], [interval] and [nextReview] as they
    were; in particular a card with interval 0, ease factor 2.5 and no
    repetition still has them after the rating. *)
Theorem rateCard_good_keeps_schedule st now :
  wf st -> active st ->
  exists r card st' card',
    current_ref st = Some r /\ heap st !! r = Some card /\
    rateCard rating_good now st = Returned st' /\
    heap st' !! r = Some card' /\
    repetitions card' = repetitions card /\
    easeFactor card' = easeFactor card /\
    interval card' = interval card /\
    nextReview card' = nextReview card /\
    lastReviewed card' = Some now /\
    (schedule_initial card -> schedule_initial card').
Proof.
  intros Hwf Hact.
  destruct (rateCard_card st rating_good now Hwf Hact)
    as (s & r & card & st' & Hs & Hr & Hc & Hrate & _ & Hrc & _).
  exists r, card, st', (set_lastReviewed now card).
  unfold current_ref. rewrite Hs. simpl.
  repeat (split; [done|]). intros H. exact H.
Qed.

Lemma rateCard_good_keeps_schedule_witness :
  wf demo_started_one /\ active demo_started_one /\
  exists st' card',
    rateCard rating_good 5000 demo_started_one = Returned st' /\
    heap st' !! 0 = Some card' /\
    repetitions card' = 0%Z /\ interval card' = 0%Z.
Proof.
  assert (Hwf : wf demo_started_one) by solve_wf.
  assert (Hact : active demo_started_one) by reflexivity.
  split; [exact Hwf|]. split; [exact Hact|].
  destruct (rateCard_good_keeps_schedule demo_started_one 5000 Hwf Hact)
    as (r & card & st' & card' & Hr & Hc & Hrate & Hc' & Hrep & _ & Hint & _).
  vm_compute in Hr. injection Hr as <-.
  vm_compute in Hc. injection Hc as <-.
  exists st', card'. repeat split; assumption.
Defined.

(** C2, as stated, fails: rated again, the card keeps its ease factor 2.5
    (not 2.3) and its [nextReview] (the instant of its creation, not the
    instant of the review). *)
Lemma rateCard_again_counterexample :
  let card0 := newCard "Q1" "A1" 2000 in
  heap demo_started_one !! 0 = Some card0 /\
  exists st1 card1,
    rateCard rating_again 5000 demo_started_one = Returned st1 /\
    heap st1 !! 0 = Some card1 /\
    easeFactor card1 = (5 # 2)%Q /\
    nextReview card1 = 2000%Z /\
    ~ spec_again card0 5000 card1.
Proof.
  split; [reflexivity|]. eexists _, _.
  split; [vm_compute; reflexivity|]. split; [reflexivity|].
  repeat (split; [reflexivity|]).
  intros (_ & _ & _ & H). vm_compute in H. discriminate H.
Qed.

(** C2, amended. With an active session, rating the card under the cursor
    again returns normally, sets [lastReviewed] to the current time and
    leaves [repetitions], [interval], [easeFactor] and [nextReview] as they
    were, whatever the card held before. *)
Theorem rateCard_again_keeps_schedule st now :
  wf st -> active st ->
  exists r card st' card',
    current_ref st = Some r /\ heap st !! r = Some card /\
    rateCard rating_again now st = Returned st' /\
    heap st' !! r = Some card' /\
    repetitions card' = repetitions card /\
    interval card' = interval card /\
    easeFactor card' = easeFactor card /\
    nextReview card' = nextReview card /\
    lastReviewed card' = Some now.
Proof.
  intros Hwf Hact.
  destruct (rateCard_card st rating_again now Hwf Hact)
    as (s & r & card & st' & Hs & Hr & Hc & Hrate & _ & Hrc & _).
  exists r, card, st', (set_lastReviewed now card).
  unfold current_ref. rewrite Hs. simpl. by repeat split.
Qed.

Lemma rateCard_again_keeps_schedule_witness :
  wf demo_started /\ active demo_started /\
  exists st' card',
    rateCard rating_again 5000 demo_started = Returned st' /\
    heap st' !! 0 = Some card' /\
    (easeFactor card' = 5 # 2)%Q /\ nextReview card' = 2000%Z.
Proof.
  assert (Hwf : wf demo_started) by solve_wf.
  assert (Hact : active demo_started) by reflexivity.
  split; [exact Hwf|]. split; [exact Hact|].
  destruct (rateCard_again_keeps_schedule demo_started 5000 Hwf Hact)
    as (r & card & st' & card' & Hr & Hc & Hrate & Hc' & _ & _ & He & Hn & _).
  vm_compute in Hr. injection Hr as <-.
  vm_compute in Hc. injection Hc as <-.
  exists st', card'. repeat split; assumption.
Defined.

(** [rateCard] never looks at its argument. *)
Lemma rateCard_rating_irrelevant rating rating' now st :
  rateCard rating now st = rateCard rating' now st.
Proof. reflexivity. Qed.

(** C8, as stated, fails: the ratings 7, 0, ["easy"] and [undefined] are
    outside 1..4, and each of them is accepted and moves the session on. *)
Lemma rateCard_invalid_rating_counterexample :
  exists st',
    rateCard (JsNum 7) 5000 demo_started = Returned st' /\
    rateCard (JsNum 0) 5000 demo_started = Returned st' /\
    rateCard (JsStr "easy") 5000 demo_started = Returned st' /\
    rateCard JsUndefined 5000 demo_started = Returned st' /\
    progress demo_started = Some (0, 2) /\
    progress st' = Some (1, 2) /\
    (lastReviewed <$> heap st' !! 0) = Some (Some 5000%Z).
Proof. eexists. repeat split; vm_compute; reflexivity. Qed.

(** C8, amended. [rateCard] does not validate its rating: with an active
    session every rating value, inside or outside 1..4, makes it return
    normally, and with the same resulting state as any other value. *)
Theorem rateCard_accepts_every_rating st rating now :
  wf st -> active st ->
  exists st', rateCard rating now st = Returned st' /\
              forall rating', rateCard rating' now st = Returned st'.
Proof.
  intros Hwf Hact.
  destruct (rateCard_card st rating now Hwf Hact)
    as (s & r & card & st' & _ & _ & _ & Hrate & _).
  exists st'. split; [done|]. intros rating'.
  by rewrite (rateCard_rating_irrelevant rating' rating).
Qed.

Lemma rateCard_accepts_every_rating_witness :
  wf demo_started /\ active demo_started /\
  exists st', rateCard (JsNum 7) 5000 demo_started = Returned st' /\
              forall rating', rateCard rating' 5000 demo_started = Returned st'.
Proof.
  assert (Hwf : wf demo_started) by solve_wf.
  assert (Hact : active demo_started) by reflexivity.
  split; [exact Hwf|]. split; [exact Hact|].
  exact (rateCard_accepts_every_rating demo_started (JsNum 7) 5000 Hwf Hact).
Defined.

(** ** The question/answer phase *)

Lemma nextCard_showAnswer st st' :
  nextCard st = Returned st' -> nextCard (showAnswer st) = Returned st'.
Proof.
  unfold nextCard.
  change (session_completed (showAnswer st)) with (session_completed st).
  destruct (session_completed st); [by intros [= <-]|].
  change (currentStudySession (showAnswer st)) with (currentStudySession st).
  destruct (currentStudySession st) as [s|]; [|done].
  change (heap (showAnswer st)) with (heap st).
  destruct (session_cards s !! currentIndex s ≫= _); [|done].
  by intros [= <-].
Qed.

Lemma showAnswer_phase st : showingAnswer (dom (showAnswer st)).
Proof. by repeat split. Qed.

(** C7, as stated, fails: right after the start the question is showing
    and the rating buttons are hidden, yet [rateCard] returns normally and
    the session has moved to the second card. *)
Lemma rateCard_wrong_phase_counterexample :
  showingQuestion (dom demo_started) /\
  exists st',
    rateCard rating_good 5000 demo_started = Returned st' /\
    progress demo_started = Some (0, 2) /\
    progress st' = Some (1, 2) /\
    (lastReviewed <$> heap demo_started !! 0) = Some None /\
    (lastReviewed <$> heap st' !! 0) = Some (Some 5000%Z).
Proof.
  split; [by repeat split|]. eexists. repeat split; vm_compute; reflexivity.
Qed.

(** C7, amended. [rateCard] checks no phase: with an active session whose
    question is showing, it returns normally and moves the cursor forward
    by one, and the state it reaches is the very state reached when
    [showAnswer] is called first; [showAnswer] itself only makes the
    answer and the rating buttons visible. *)
Theorem rateCard_ignores_phase st rating now :
  wf st -> active st -> showingQuestion (dom st) ->
  exists st' i n,
    rateCard rating now st = Returned st' /\
    progress st = Some (i, n) /\ progress st' = Some (i + 1, n) /\
    showingAnswer (dom (showAnswer st)) /\
    rateCard rating now (showAnswer st) = Returned st'.
Proof.
  intros Hwf Hact _.
  destruct (rateCard_card st rating now Hwf Hact)
    as (s & r & card & st' & Hs & Hr & Hc & Hrate & _ & _ & Hs' & _).
  exists st', (currentIndex s), (length (session_cards s)).
  split; [done|]. unfold progress. rewrite Hs, Hs'. simpl.
  rewrite Nat.add_1_r. repeat split; try done.
  rewrite (rateCard_unfold _ _ _ _ _ _ Hs Hr Hc) in Hrate.
  rewrite (rateCard_unfold (showAnswer st) s r card); try done.
  by apply (nextCard_showAnswer (rated s r card now st)).
Qed.

Lemma rateCard_ignores_phase_witness :
  wf demo_started /\ active demo_started /\
  showingQuestion (dom demo_started) /\
  exists st' i n,
    rateCard rating_easy 5000 demo_started = Returned st' /\
    progress demo_started = Some (i, n) /\ progress st' = Some (i + 1, n) /\
    showingAnswer (dom (showAnswer demo_started)) /\
    rateCard rating_easy 5000 (showAnswer demo_started) = Returned st'.
Proof.
  assert (Hwf : wf demo_started) by solve_wf.
  assert (Hact : active demo_started) by reflexivity.
  assert (Hq : showingQuestion (dom demo_started)) by (by repeat split).
  split; [exact Hwf|]. split; [exact Hact|]. split; [exact Hq|].
  exact (rateCard_ignores_phase demo_started rating_easy 5000 Hwf Hact Hq).
Defined.

(** ** Claims about [startStudySession] *)

(** C5, as stated, fails: on a deck without cards, and on an unknown deck,
    [startStudySession] returns normally, having done nothing. *)
Lemma startStudySession_empty_counterexample :
  deck_cards_of "1000" demo_empty = [] /\
  startStudySession "1000" demo_empty = Returned demo_empty /\
  startStudySession "4000" demo_empty = Returned demo_empty.
Proof. repeat split; vm_compute; reflexivity. Qed.

(** The two ways out of [startStudySession]. *)
Lemma startStudySession_cases deckId st :
  wf st ->
  (deck_cards_of deckId st = [] -> startStudySession deckId st = Returned st) /\
  (deck_cards_of deckId st <> [] ->
   exists st',
     startStudySession deckId st = Returned st' /\
     currentStudySession st' =
       Some (mkSession deckId (deck_cards_of deckId st) 0) /\
     showingQuestion (dom st') /\
     progress_text (dom st') =
       progress_label 0 (length (deck_cards_of deckId st)) /\
     currentDeckId st' = Some deckId /\ currentCardIndex st' = 0 /\
     currentView st' = StudyView /\
     decks st' = decks st /\ heap st' = heap st).
Proof.
  intros Hwf. unfold deck_cards_of. split.
  - intros H. apply startStudySession_skip.
    by destruct (find_deck deckId st) as [[i deck]|].
  - destruct (find_deck deckId st) as [[i deck]|] eqn:Hf; [|done].
    intros Hne.
    destruct (startStudySession_started deckId st i deck Hwf Hf Hne)
      as (r & card & name & _ & _ & ->).
    eexists. split; [reflexivity|]. by repeat split.
Qed.

(** C5, amended. When the deck is unknown or has no card,
    [startStudySession] returns normally and leaves the state as it was,
    raising no error.  When the deck has a card, it returns normally with a
    session on the cards of the deck, the cursor at 0, and the study view
    showing a question: answer and rating buttons hidden, show-answer
    button visible, progress text 0/N. *)
Theorem startStudySession_guard deckId st :
  wf st ->
  (deck_cards_of deckId st = [] -> startStudySession deckId st = Returned st) /\
  (deck_cards_of deckId st <> [] ->
   exists st',
     startStudySession deckId st = Returned st' /\
     currentStudySession st' =
       Some (mkSession deckId (deck_cards_of deckId st) 0) /\
     showingQuestion (dom st') /\
     progress_text (dom st') =
       progress_label 0 (length (deck_cards_of deckId st)) /\
     currentDeckId st' = Some deckId /\ currentCardIndex st' = 0 /\
     currentView st' = StudyView /\
     decks st' = decks st /\ heap st' = heap st).
Proof. apply startStudySession_cases. Qed.

Lemma startStudySession_guard_witness :
  wf demo_two /\ deck_cards_of "1000" demo_two <> [] /\
  exists st',
    startStudySession "1000" demo_two = Returned st' /\
    currentStudySession st' = Some (mkSession "1000" [0; 1] 0) /\
    showingQuestion (dom st') /\
    progress_text (dom st') = "0/2".
Proof.
  assert (Hwf : wf demo_two) by solve_wf.
  assert (Hne : deck_cards_of "1000" demo_two <> []) by (vm_compute; discriminate).
  split; [exact Hwf|]. split; [exact Hne|].
  destruct (startStudySession_guard "1000" demo_two Hwf) as [_ H].
  destruct (H Hne) as (st' & Hst & Hs & Hq & Hp & _).
  exists st'. split; [exact Hst|]. split; [exact Hs|]. split; [exact Hq|].
  exact Hp.
Defined.

(** ** A whole session *)

Lemma rateAll_session ratings : forall st s,
  wf st ->
  currentStudySession st = Some s ->
  currentIndex s + length ratings <= length (session_cards s) ->
  progress_text (dom st) =
    progress_label (Nat.min (currentIndex s) (length (session_cards s) - 1))
                   (length (session_cards s)) ->
  exists st',
    rateAll ratings st = Returned st' /\ wf st' /\
    currentStudySession st' =
      Some (mkSession (session_deckId s) (session_cards s)
                      (currentIndex s + length ratings)) /\
    progress_text (dom st') =
      progress_label (Nat.min (currentIndex s + length ratings)
                              (length (session_cards s) - 1))
                     (length (session_cards s)) /\
    (ratings <> [] ->
     currentIndex s + length ratings = length (session_cards s) ->
     question_text (dom st') = "Study session completed!").
Proof.
  induction ratings as [|[rating now] ratings IH]; intros st s Hwf Hs Hlen Htxt.
  - exists st. simpl. rewrite Nat.add_0_r. destruct s. simpl in *.
    repeat (split; [done|]). by intros H.
  - simpl in Hlen.
    assert (Hlt : currentIndex s < length (session_cards s)) by lia.
    destruct (lookup_lt_is_Some_2 _ _ Hlt) as [r Hr].
    destruct (wf_lookup _ _ _ _ Hwf Hs Hr) as [card Hc].
    destruct (rateCard_step st s r card rating now Hwf Hs Hr Hc)
      as (d & Hrate & Hd).
    set (st1 := with_dom d (rated s r card now st)) in *.
    set (s1 := mkSession (session_deckId s) (session_cards s)
                         (S (currentIndex s))).
    assert (Hwf1 : wf st1) by (by apply wf_with_dom, wf_rated).
    assert (Htxt1 : progress_text (dom st1) =
              progress_label (Nat.min (currentIndex s1)
                                      (length (session_cards s1) - 1))
                             (length (session_cards s1))).
    { change (progress_text d =
              progress_label (Nat.min (S (currentIndex s))
                                      (length (session_cards s) - 1))
                             (length (session_cards s))).
      destruct Hd as [[Hle ->]|[Hlt' [next ->]]];
        cbn [progress_text show_completed show_question].
      - rewrite Htxt. f_equal. lia.
      - f_equal. lia. }
    destruct (IH st1 s1 Hwf1 eq_refl) as (st' & Hall & Hwf' & Hs' & Htxt' & Hdone);
      [simpl; lia|exact Htxt1|].
    exists st'. simpl. rewrite Hrate. simpl.
    split; [exact Hall|]. split; [exact Hwf'|].
    simpl in Hs', Htxt'. rewrite <- Nat.add_succ_comm.
    split; [exact Hs'|]. split; [exact Htxt'|].
    intros _ Hend. destruct ratings as [|p ratings'].
    + simpl in Hall. injection Hall as <-. simpl.
      destruct Hd as [[Hle ->]|[Hlt' _]]; [reflexivity|simpl in Hend; lia].
    + apply Hdone; [done|]. simpl in *. lia.
Qed.

(** C6. A session started on a deck of N cards counts the ratings made: for
    every k from 0 to N, after k calls of [rateCard] (each returns
    normally) the session stands at (k, N), cursor and total, the pair
    [nextCard] displays as X/Y; the session is complete, in the sense of
    the guard of [nextCard], exactly when k = N, and the study view then
    reads that the session is completed; the displayed progress is 0/N at
    the start and k/N after the k-th rating while k < N. *)
Theorem session_counts_ratings deckId st ratings :
  wf st ->
  deck_cards_of deckId st <> [] ->
  length ratings <= length (deck_cards_of deckId st) ->
  exists st0 stk,
    startStudySession deckId st = Returned st0 /\
    progress st0 = Some (0, length (deck_cards_of deckId st)) /\
    progress_text (dom st0) =
      progress_label 0 (length (deck_cards_of deckId st)) /\
    rateAll ratings st0 = Returned stk /\
    progress stk = Some (length ratings, length (deck_cards_of deckId st)) /\
    (session_completed stk = true <->
     length ratings = length (deck_cards_of deckId st)) /\
    (length ratings < length (deck_cards_of deckId st) ->
     progress_text (dom stk) =
       progress_label (length ratings) (length (deck_cards_of deckId st))) /\
    (ratings <> [] ->
     length ratings = length (deck_cards_of deckId st) ->
     question_text (dom stk) = "Study session completed!").
Proof.
  intros Hwf Hne Hlen.
  destruct (startStudySession_cases deckId st Hwf) as [_ H].
  destruct (H Hne) as (st0 & Hst & Hs & _ & Hp & _). clear H.
  set (cards := deck_cards_of deckId st) in *.
  assert (Hwf0 : wf st0).
  { replace st0 with (state_of (startStudySession deckId st)) by by rewrite Hst.
    by apply wf_startStudySession. }
  assert (Hpos : 0 < length cards) by (destruct cards; [done|simpl; lia]).
  destruct (rateAll_session ratings st0 _ Hwf0 Hs)
    as (stk & Hall & _ & Hsk & Htxt & Hdone); simpl; [lia|by rewrite Hp|].
  simpl in *. exists st0, stk.
  split; [done|]. split; [unfold progress; by rewrite Hs|]. split; [done|].
  split; [done|]. split; [unfold progress; by rewrite Hsk|].
  split; [|split].
  - unfold session_completed. rewrite Hsk. simpl. rewrite Nat.leb_le. lia.
  - intros Hlt. rewrite Htxt. f_equal. lia.
  - exact Hdone.
Qed.

Lemma session_counts_ratings_witness :
  wf demo_two /\ deck_cards_of "1000" demo_two <> [] /\
  exists st0 stk,
    startStudySession "1000" demo_two = Returned st0 /\
    progress_text (dom st0) = "0/2" /\
    rateAll [(rating_good, 5000%Z); (rating_hard, 6000%Z)] st0 = Returned stk /\
    progress stk = Some (2, 2) /\
    session_completed stk = true.
Proof.
  assert (Hwf : wf demo_two) by solve_wf.
  assert (Hne : deck_cards_of "1000" demo_two <> []) by (vm_compute; discriminate).
  split; [exact Hwf|]. split; [exact Hne|].
  destruct (session_counts_ratings "1000" demo_two
              [(rating_good, 5000%Z); (rating_hard, 6000%Z)] Hwf Hne)
    as (st0 & stk & Hst & _ & Hp0 & Hall & Hpk & Hdone & _);
    [vm_compute; lia|].
  exists st0, stk. split; [exact Hst|]. split; [exact Hp0|].
  split; [exact Hall|]. split; [exact Hpk|]. apply Hdone. reflexivity.
Defined.

(** The progress text is not refreshed by the rating that completes the
    session: [nextCard] returns from its completion branch before the
    lines that write it, so the view keeps showing (N-1)/N. *)
Lemma progress_text_after_last_rating deckId st ratings :
  wf st ->
  deck_cards_of deckId st <> [] ->
  length ratings = length (deck_cards_of deckId st) ->
  exists st0 stk,
    startStudySession deckId st = Returned st0 /\
    rateAll ratings st0 = Returned stk /\
    progress_text (dom stk) =
      progress_label (length ratings - 1) (length ratings).
Proof.
  intros Hwf Hne Hlen.
  destruct (startStudySession_cases deckId st Hwf) as [_ H].
  destruct (H Hne) as (st0 & Hst & Hs & _ & Hp & _). clear H.
  assert (Hwf0 : wf st0).
  { replace st0 with (state_of (startStudySession deckId st)) by by rewrite Hst.
    by apply wf_startStudySession. }
  destruct (rateAll_session ratings st0 _ Hwf0 Hs)
    as (stk & Hall & _ & _ & Htxt & _); simpl; [lia|by rewrite Hp|].
  simpl in Htxt. exists st0, stk. split; [done|]. split; [done|].
  rewrite Htxt, <- Hlen. f_equal. lia.
Qed.

(** ** The session and the deck share their cards *)





(** ** The scheduling fields *)

Lemma newCard_initial q a now : schedule_initial (newCard q a now).
Proof. by repeat split. Qed.

(** C4. Cards are created with interval 0, ease factor 2.5 and no
    repetition, and in every state the application reaches from its
    construction, by any sequence of calls, ratings included, every card
    has an ease factor of at least 1.3 and a non-negative interval (and a
    non-negative repetition count). *)
Theorem schedule_bounds_always d ops :
  (forall q a now,
     interval (newCard q a now) = 0%Z /\
     easeFactor (newCard q a now) = (5 # 2)%Q /\
     repetitions (newCard q a now) = 0%Z) /\
  (forall deckId q a now st,
     heap (handleAddCard deckId q a now st) = heap st \/
     heap (handleAddCard deckId q a now st)
     = (heap st ++ [newCard q a now])%list) /\
  Forall (fun c => (13 # 10 <= easeFactor c)%Q /\ (0 <= interval c)%Z /\
                   (0 <= repetitions c)%Z)
         (heap (run ops (newAksonApp d))).
Proof.
  split; [intros; apply newCard_initial|].
  split; [intros; apply heap_handleAddCard|].
  eapply Forall_impl.
  - apply (run_keeps schedule_initial newCard_initial).
    + by intros t c H.
    + constructor.
  - intros c. apply schedule_initial_bounds.
Qed.

(** Rating keeps the bounds on cards that did not come from
    [handleAddCard] as well, a card read back from storage for one. *)
Lemma schedule_bounds_kept ops st :
  Forall schedule_bounds (heap st) -> Forall schedule_bounds (heap (run ops st)).
Proof.
  apply run_keeps.
  - intros. apply schedule_initial_bounds, newCard_initial.
  - by intros t c H.
Qed.

(** * Further properties of [AksonApp] *)

Open Scope list_scope.

(** ** The shape of the state after each call *)

Lemma startStudySession_shape deckId st :
  state_of (startStudySession deckId st) = st \/
  exists i deck d,
    find_deck deckId st = Some (i, deck) /\ deck_cards deck <> [] /\
    state_of (startStudySession deckId st)
    = with_dom d (with_view StudyView (starting deckId deck st)).
Proof.
  unfold startStudySession. simpl.
  destruct (find_deck deckId st) as [[i deck]|] eqn:Hf; [|by left].
  destruct (length (deck_cards deck) =? 0) eqn:He; [by left|].
  right. exists i, deck. apply length_eqb_0 in He as Hne.
  fold (starting deckId deck st).
  unfold switchView_with, renderStudyView_with. simpl.
  destruct (is_empty deckId); simpl.
  - destruct (nextCard_state
                (with_dom (study_message "Select a deck to begin studying"
                             "Select a deck to start studying"
                             (dom (starting deckId deck st)))
                          (with_view StudyView (starting deckId deck st))))
      as [d Hd].
    exists d. split; [done|]. split; [done|]. exact Hd.
  - unfold find_deck in *. simpl. rewrite Hf, He. simpl.
    set (st1 := with_view StudyView (starting deckId deck st)).
    destruct (nextCard_state st1) as [d1 Hd1].
    destruct (nextCard st1) as [st2|e st2]; simpl in *.
    + destruct (nextCard_state st2) as [d2 Hd2]. exists d2.
      split; [done|]. split; [done|]. rewrite Hd2, Hd1. done.
    + exists d1. by rewrite Hd1.
Qed.

Lemma renderStudyView_shape st :
  (exists d, state_of (renderStudyView st) = with_dom d st) \/
  (currentStudySession st = None /\
   exists deckId d,
     truthy_deckId (currentDeckId st) = Some deckId /\
     state_of (renderStudyView st)
     = with_dom d (state_of (startStudySession deckId st))).
Proof.
  unfold renderStudyView, renderStudyView_with.
  destruct (truthy_deckId (currentDeckId st)) as [deckId|]; [|left; by eexists].
  destruct (find_deck deckId st) as [[i deck]|]; [|left; by eexists].
  destruct (length (deck_cards deck) =? 0); [left; by eexists|].
  destruct (currentStudySession st) eqn:Hs.
  - left. simpl. apply nextCard_state.
  - right. split; [done|]. exists deckId.
    rewrite (startStudySession_fuel_enough 0). simpl.
    destruct (startStudySession deckId st) as [st1|e st1]; simpl.
    + destruct (nextCard_state st1) as [d Hd]. by exists d.
    + exists (dom st1). split; [done|]. by destruct st1.
Qed.

Lemma switchView_shape v st :
  (exists d, state_of (switchView v st) = with_dom d (with_view v st)) \/
  (v = StudyView /\ currentStudySession st = None /\
   exists deckId d,
     truthy_deckId (currentDeckId st) = Some deckId /\
     state_of (switchView v st)
     = with_dom d (state_of (startStudySession deckId (with_view v st)))).
Proof.
  unfold switchView, switchView_with.
  destruct v; try (left; exists (dom st); by destruct st).
  rewrite (renderStudyView_fuel_enough 0). simpl.
  destruct (renderStudyView_shape (with_view StudyView st))
    as [[d Hd]|(Hs & deckId & d & Hid & Hd)].
  - left. by exists d.
  - right. split; [done|]. split; [done|]. by exists deckId, d.
Qed.

Lemma rateCard_shape rating now st :
  state_of (rateCard rating now st) = st \/
  exists s r card d,
    currentStudySession st = Some s /\
    session_cards s !! currentIndex s = Some r /\
    heap st !! r = Some card /\
    state_of (rateCard rating now st) = with_dom d (rated s r card now st).
Proof.
  unfold rateCard. destruct (currentStudySession st) as [s|] eqn:Hs; [|by left].
  destruct (session_cards s !! currentIndex s) as [r|] eqn:Hr; [|by left].
  destruct (heap st !! r) as [card|] eqn:Hc; [|by left].
  right. fold (rated s r card now st).
  destruct (nextCard_state (rated s r card now st)) as [d Hd].
  by exists s, r, card, d.
Qed.

(** ** The session, once started *)

Lemma session_inv_starting deckId deck st d :
  deck_cards deck <> [] ->
  session_inv (with_dom d (with_view StudyView (starting deckId deck st))).
Proof. intros Hne. split; [done|]. simpl. repeat split; [done|lia]. Qed.

Lemma session_inv_startStudySession deckId st :
  session_inv st -> session_inv (state_of (startStudySession deckId st)).
Proof.
  intros H.
  destruct (startStudySession_shape deckId st) as [->|(i & deck & d & _ & Hne & ->)];
    [done|by apply session_inv_starting].
Qed.

Lemma session_inv_exec op st :
  session_inv st -> session_inv (state_of (exec op st)).
Proof.
  intros H.
  destruct op as [name descr now|deckId q a now|deckId confirmed|v|deckId|
                 |rating now]; simpl.
  - unfold handleAddDeck. by destruct (is_empty _).
  - unfold handleAddCard. destruct (_ || _); [done|].
    by destruct (find_deck deckId st) as [[i deck]|].
  - unfold deleteDeck. by destruct confirmed.
  - destruct (switchView_shape v st)
      as [[d ->]|(_ & _ & deckId & d & _ & ->)]; [done|].
    by apply (session_inv_startStudySession deckId (with_view v st)).
  - by apply session_inv_startStudySession.
  - done.
  - destruct (rateCard_shape rating now st)
      as [->|(s & r & card & d & Hs & Hr & _ & ->)]; [done|].
    destruct H as [H0 H]. rewrite Hs in H. destruct H as (Hid & Hne & _).
    split; [done|]. simpl. repeat split; try done.
    apply lookup_lt_Some in Hr. lia.
Qed.

Lemma session_inv_run ops st : session_inv st -> session_inv (run ops st).
Proof.
  revert st. induction ops as [|op ops IH]; intros st H; simpl; [done|].
  by apply IH, session_inv_exec.
Qed.

Lemma session_inv_constructor saved d : session_inv (constructor saved d).
Proof. unfold constructor. by destruct (loadDecks saved). Qed.

(** X1. Whatever the storage held and whatever is called, the state keeps
    the session consistent: [currentCardIndex] is 0; without a session
    [currentDeckId] is [null]; with a session [currentDeckId] is the deck
    of the session, the session has at least one card, and its cursor is at
    most the number of its cards. *)
Theorem session_consistent saved d ops :
  session_inv (run ops (constructor saved d)).
Proof. apply session_inv_run, session_inv_constructor. Qed.

Lemma session_stays_exec op st :
  is_Some (currentStudySession st) ->
  is_Some (currentStudySession (state_of (exec op st))).
Proof.
  intros H.
  destruct op as [name descr now|deckId q a now|deckId confirmed|v|deckId|
                 |rating now]; simpl.
  - unfold handleAddDeck. by destruct (is_empty _).
  - unfold handleAddCard. destruct (_ || _); [done|].
    by destruct (find_deck deckId st) as [[i deck]|].
  - unfold deleteDeck. by destruct confirmed.
  - destruct (switchView_shape v st)
      as [[d ->]|(_ & Hn & _)]; [done|].
    rewrite Hn in H. by destruct H.
  - destruct (startStudySession_shape deckId st)
      as [->|(i & deck & d & _ & _ & ->)]; [done|by eexists].
  - done.
  - destruct (rateCard_shape rating now st)
      as [->|(s & r & card & d & _ & _ & _ & ->)]; [done|by eexists].
Qed.

(** X2. A session never ends: once [currentStudySession] is set, no
    sequence of calls makes it [null] again, not even the rating of the
    last card or the deletion of its deck. *)
Theorem session_never_cleared ops st s :
  currentStudySession st = Some s ->
  exists s', currentStudySession (run ops st) = Some s'.
Proof.
  intros H. assert (Hs : is_Some (currentStudySession st)) by by eexists.
  clear H. revert st Hs. induction ops as [|op ops IH]; intros st Hs; simpl.
  - destruct Hs as [s' Hs]. by exists s'.
  - by apply IH, session_stays_exec.
Qed.

Lemma session_never_cleared_witness :
  currentStudySession demo_started = Some (mkSession "1000" [0; 1] 0) /\
  exists s',
    currentStudySession
      (run [RateCard rating_good 5000; RateCard rating_good 6000;
            DeleteDeck "1000" true; SwitchView DashboardView] demo_started)
    = Some s'.
Proof.
  split; [reflexivity|].
  apply (session_never_cleared _ demo_started (mkSession "1000" [0; 1] 0)).
  reflexivity.
Defined.

(** X3. [renderStudyView] never starts a session by itself: in every state
    the application reaches, entering the study view without a session
    shows the invitation to select a deck, with progress 0/0, and changes
    nothing else but the name of the current view. *)
Theorem study_view_without_session saved d ops :
  currentStudySession (run ops (constructor saved d)) = None ->
  switchView StudyView (run ops (constructor saved d))
  = Returned (with_dom
                (study_message "Select a deck to begin studying"
                               "Select a deck to start studying"
                               (dom (run ops (constructor saved d))))
                (with_view StudyView (run ops (constructor saved d)))).
Proof.
  intros Hs.
  destruct (session_inv_run ops _ (session_inv_constructor saved d)) as [_ H].
  rewrite Hs in H. unfold switchView, switchView_with, renderStudyView_with.
  simpl. by rewrite H.
Qed.

Lemma study_view_without_session_witness :
  currentStudySession (run [AddDeck "Anatomy" "" 1000] (constructor None blank))
  = None /\
  question_text
    (dom (state_of (switchView StudyView
                      (run [AddDeck "Anatomy" "" 1000] (constructor None blank)))))
  = "Select a deck to begin studying".
Proof.
  split; [reflexivity|].
  rewrite (study_view_without_session None blank [AddDeck "Anatomy" "" 1000]);
    reflexivity.
Defined.

(** ** What the decks and the store hold *)

Lemma is_empty_false s : is_empty s = false <-> s <> "".
Proof. destruct s; simpl; split; intros; congruence. Qed.

Lemma decks_heap_session_calls op st :
  edits_decks op = false ->
  decks (state_of (exec op st)) = decks st /\
  (heap (state_of (exec op st)) = heap st \/
   exists r card now,
     heap st !! r = Some card /\
     heap (state_of (exec op st)) = <[r := set_lastReviewed now card]> (heap st)).
Proof.
  destruct op as [name descr now|deckId q a now|deckId confirmed|v|deckId|
                 |rating now]; try done; intros _; simpl.
  - destruct (switchView_shape v st)
      as [[d ->]|(_ & _ & deckId & d & _ & ->)]; [by split; [|left]|].
    destruct (startStudySession_shape deckId (with_view v st))
      as [->|(i & deck & d' & _ & _ & ->)]; by split; [|left].
  - destruct (startStudySession_shape deckId st)
      as [->|(i & deck & d' & _ & _ & ->)]; by split; [|left].
  - by split; [|left].
  - destruct (rateCard_shape rating now st)
      as [->|(s & r & card & d & _ & _ & Hc & ->)]; [by split; [|left]|].
    split; [done|]. right. by exists r, card, now.
Qed.

Lemma texts_inv_exec op st : texts_inv st -> texts_inv (state_of (exec op st)).
Proof.
  intros [Hd Hh].
  destruct (edits_decks op) eqn:Hop.
  - destruct op as [name descr now|deckId q a now|deckId confirmed|v|deckId|
                   |rating now]; try done; simpl.
    + unfold handleAddDeck. destruct (is_empty (trim name)) eqn:He; [done|].
      split; [|done]. simpl. apply Forall_app. split; [done|].
      constructor; [|constructor]. simpl. by apply is_empty_false.
    + unfold handleAddCard.
      destruct (is_empty (trim q)) eqn:Hq; [done|].
      destruct (is_empty (trim a)) eqn:Ha; [done|]. simpl.
      destruct (find_deck deckId st) as [[i deck]|] eqn:Hf; [|done].
      split; simpl.
      * apply Forall_insert; [done|]. simpl.
        rewrite Forall_lookup in Hd.
        apply (Hd i), (find_deck_lookup deckId st), Hf.
      * apply Forall_app. split; [done|]. constructor; [|constructor].
        simpl. split; by apply is_empty_false.
    + unfold deleteDeck. destruct confirmed; [|done]. split; [|done]. simpl.
      rewrite List.Forall_forall in *. intros x Hin.
      apply List.filter_In in Hin as [Hin _]. auto.
  - destruct (decks_heap_session_calls op st Hop)
      as [Hdecks [Hheap|(r & card & now & Hc & Hheap)]];
      split; rewrite ?Hdecks, ?Hheap; try done.
    apply Forall_insert; [done|]. rewrite Forall_lookup in Hh.
    exact (Hh r card Hc).
Qed.

(** X4. Starting from an empty storage and whatever is called, no blank
    text is ever stored: every deck has a non-empty name, every card a
    non-empty question and a non-empty answer. *)
Theorem no_blank_texts d ops : texts_inv (run ops (newAksonApp d)).
Proof.
  assert (H : texts_inv (newAksonApp d)) by (split; constructor).
  revert H. generalize (newAksonApp d).
  induction ops as [|op ops IH]; intros st H; simpl; [done|].
  by apply IH, texts_inv_exec.
Qed.

(** ** Each card belongs to one deck *)





Lemma parse_decks_spec saved : forall h ds h',
  parse_decks h saved = (ds, h') ->
  h' = (h ++ concat (map stored_cards saved))%list /\
  concat (map deck_cards ds)
  = seq (length h) (length (concat (map stored_cards saved))) /\
  Forall (fun deck => valid_refs h' (deck_cards deck)) ds.
Proof.
  induction saved as [|sd saved IH]; intros h ds h'; simpl.
  - intros [= <- <-]. rewrite app_nil_r. repeat split; constructor.
  - destruct (parse_decks (h ++ stored_cards sd) saved) as [ds0 h0] eqn:E.
    intros [= <- <-]. destruct (IH _ _ _ E) as (-> & Hc & Hv).
    rewrite <- (assoc_L (++)) in *. split; [done|]. simpl. rewrite Hc.
    rewrite !length_app. split.
    + symmetry. apply List.seq_app.
    + constructor; [|done]. simpl. unfold valid_refs.
      apply Forall_forall. intros r Hr. apply elem_of_seq in Hr.
      rewrite !length_app. lia.
Qed.




(** ** Saving and loading *)

Lemma omap_lookup_seq (cards : list Card) : forall h rest : list Card,
  omap ((h ++ cards ++ rest)%list !!.) (seq (length h) (length cards)) = cards.
Proof.
  induction cards as [|c cs IH]; intros h rest; simpl; [done|].
  rewrite list_lookup_middle by done. f_equal.
  specialize (IH (h ++ [c]) rest).
  rewrite length_app, Nat.add_1_r, <- (assoc_L (++)) in IH. exact IH.
Qed.

Lemma omap_lookup_app_l (h rest : list Card) (refs : list Ref) :
  Forall (fun r => r < length h) refs ->
  omap ((h ++ rest)%list !!.) refs = omap (h !!.) refs.
Proof.
  induction 1 as [|r refs Hr _ IH]; simpl; [done|].
  rewrite lookup_app_l by done. unfold omap in IH. by rewrite IH.
Qed.

Lemma save_parse saved : forall h ds h',
  parse_decks h saved = (ds, h') ->
  map (fun deck => mkStoredDeck (deck_id deck) (deck_name deck)
                                (deck_description deck) (deck_createdAt deck)
                                (omap (h' !!.) (deck_cards deck))) ds
  = saved.
Proof.
  induction saved as [|sd saved IH]; intros h ds h'; simpl.
  - by intros [= <- <-].
  - destruct (parse_decks (h ++ stored_cards sd) saved) as [ds0 h0] eqn:E.
    intros [= <- <-]. simpl. rewrite (IH _ _ _ E). f_equal.
    destruct (parse_decks_spec _ _ _ _ E) as (-> & _ & _).
    rewrite <- (assoc_L (++)), omap_lookup_seq. by destruct sd.
Qed.



Lemma not_saved_same_state op st :
  edits_decks op = true -> saves op st = false -> state_of (exec op st) = st.
Proof.
  destruct op as [name descr now|deckId q a now|deckId confirmed|v|deckId|
                 |rating now]; try done; simpl; intros _.
  - unfold handleAddDeck. by destruct (is_empty (trim name)).
  - unfold handleAddCard. destruct (is_empty (trim q) || is_empty (trim a)); [done|].
    by destruct (find_deck deckId st) as [[i deck]|].
  - by intros ->.
Qed.

Lemma forget_saveDecks_insert st r card now :
  heap st !! r = Some card ->
  map forget_reviews
      (saveDecks (with_heap (<[r := set_lastReviewed now card]> (heap st)) st))
  = map forget_reviews (saveDecks st).
Proof.
  intros Hc. unfold saveDecks. simpl. rewrite !map_map.
  apply map_ext. intros deck. unfold forget_reviews, deck_card_objects. simpl.
  f_equal. unfold omap.
  induction (deck_cards deck) as [|x refs IH]; simpl; [done|].
  destruct (decide (x = r)) as [->|Hne].
  - rewrite list_lookup_insert_eq by (by apply lookup_lt_is_Some).
    rewrite Hc. simpl. by rewrite IH.
  - rewrite list_lookup_insert_ne by done.
    destruct (heap st !! x); simpl; by rewrite IH.
Qed.

Lemma forget_saveDecks_exec op st :
  saves op st = false ->
  map forget_reviews (saveDecks (state_of (exec op st)))
  = map forget_reviews (saveDecks st).
Proof.
  intros Hs. destruct (edits_decks op) eqn:Hop.
  - by rewrite (not_saved_same_state op st Hop Hs).
  - destruct (decks_heap_session_calls op st Hop)
      as [Hd [Hh|(r & card & now & Hc & Hh)]].
    + unfold saveDecks, deck_card_objects. by rewrite Hd, Hh.
    + rewrite <- (forget_saveDecks_insert st r card now Hc).
      unfold saveDecks, deck_card_objects. simpl. by rewrite Hd, Hh.
Qed.

(** X7. The stored text follows the application up to the review times:
    after any sequence of calls on an application constructed over the
    storage, the storage holds the decks of the application, in order,
    each with its cards and all their fields but, possibly,
    [lastReviewed].  A reload therefore loses nothing but review times. *)
Theorem storage_follows_state saved d ops :
  map forget_reviews (saveDecks (fst (run_stored ops (constructor saved d, saved))))
  = map forget_reviews (default [] (snd (run_stored ops (constructor saved d, saved)))).
Proof.
  assert (H0 : map forget_reviews (saveDecks (constructor saved d))
               = map forget_reviews (default [] saved)).
  { destruct saved as [text|]; [|done].
    unfold saveDecks, constructor, deck_card_objects. simpl.
    destruct (parse_decks [] text) as [ds h] eqn:E. simpl.
    by rewrite (save_parse _ _ _ _ E). }
  revert H0. generalize (constructor saved d). generalize saved.
  induction ops as [|op ops IH]; intros storage st H; simpl; [done|].
  unfold exec_stored. simpl. apply IH.
  destruct (saves op st) eqn:Hs; [done|].
  by rewrite forget_saveDecks_exec.
Qed.



(** ** Deleting a deck *)

Lemma find_deck_from_deleted k deckId ds :
  find_deck_from k deckId
    (List.filter (fun d => negb (String.eqb (deck_id d) deckId)) ds) = None.
Proof.
  revert k. induction ds as [|d0 ds IH]; intros k; simpl; [done|].
  destruct (String.eqb (deck_id d0) deckId) eqn:E; simpl; [done|].
  by rewrite E.
Qed.

Lemma find_deck_from_kept deckId deckId' ds : forall k k',
  deckId' <> deckId ->
  snd <$> find_deck_from k deckId'
            (List.filter (fun d => negb (String.eqb (deck_id d) deckId)) ds)
  = snd <$> find_deck_from k' deckId' ds.
Proof.
  induction ds as [|d0 ds IH]; intros k k' Hne; simpl; [done|].
  destruct (String.eqb (deck_id d0) deckId) eqn:E; simpl.
  - apply String.eqb_eq in E.
    destruct (String.eqb (deck_id d0) deckId') eqn:E'.
    + apply String.eqb_eq in E'. congruence.
    + by apply IH.
  - destruct (String.eqb (deck_id d0) deckId'); [done|]. by apply IH.
Qed.

(** X9. A confirmed [deleteDeck] removes every deck with the id: none is
    found afterwards and a session can no longer be started on it; the
    decks with another id are found as before, with the same cards; no
    card object is touched.  A cancelled [deleteDeck] changes nothing. *)
Theorem deleteDeck_removes deckId st :
  deleteDeck deckId false st = st /\
  find_deck deckId (deleteDeck deckId true st) = None /\
  startStudySession deckId (deleteDeck deckId true st)
  = Returned (deleteDeck deckId true st) /\
  (forall deckId', deckId' <> deckId ->
     snd <$> find_deck deckId' (deleteDeck deckId true st)
     = snd <$> find_deck deckId' st) /\
  (forall deckId', deckId' <> deckId ->
     deck_view deckId' (deleteDeck deckId true st) = deck_view deckId' st) /\
  heap (deleteDeck deckId true st) = heap st.
Proof.
  assert (Hnone : find_deck deckId (deleteDeck deckId true st) = None)
    by apply find_deck_from_deleted.
  assert (Hkept : forall deckId', deckId' <> deckId ->
            snd <$> find_deck deckId' (deleteDeck deckId true st)
            = snd <$> find_deck deckId' st)
    by (intros deckId' Hne; by apply find_deck_from_kept).
  repeat split; try done.
  - apply startStudySession_skip. by rewrite Hnone.
  - intros deckId' Hne. specialize (Hkept deckId' Hne).
    unfold deck_view, deck_cards_of.
    destruct (find_deck deckId' (deleteDeck deckId true st)) as [[i d1]|];
      destruct (find_deck deckId' st) as [[j d2]|]; simpl in *; congruence.
Qed.

(** ** Adding a card *)




(** [trim] leaves nothing exactly of the strings made of white space. *)
Lemma trimStart_blank s :
  is_empty (trimStart s) = forallb is_space (list_ascii_of_string s).
Proof.
  induction s as [|c s IH]; simpl; [done|]. by destruct (is_space c).
Qed.





(** ** A session from its first card to its last *)

Lemma rateAll_heap ratings : forall st s,
  wf st ->
  currentStudySession st = Some s ->
  NoDup (session_cards s) ->
  currentIndex s + length ratings <= length (session_cards s) ->
  exists st',
    rateAll ratings st = Returned st' /\
    (forall k rating t r,
       ratings !! k = Some (rating, t) ->
       session_cards s !! (currentIndex s + k) = Some r ->
       heap st' !! r = set_lastReviewed t <$> heap st !! r) /\
    (forall r,
       (forall k, k < length ratings ->
                  session_cards s !! (currentIndex s + k) <> Some r) ->
       heap st' !! r = heap st !! r).
Proof.
  induction ratings as [|[rating0 now0] ratings IH]; intros st s Hwf Hs Hnd Hlen.
  - exists st. simpl. repeat split; try done.
  - simpl in Hlen.
    assert (Hlt : currentIndex s < length (session_cards s)) by lia.
    destruct (lookup_lt_is_Some_2 _ _ Hlt) as [r0 Hr0].
    destruct (wf_lookup _ _ _ _ Hwf Hs Hr0) as [card0 Hc0].
    destruct (rateCard_step st s r0 card0 rating0 now0 Hwf Hs Hr0 Hc0)
      as (d & Hrate & _).
    set (st1 := with_dom d (rated s r0 card0 now0 st)) in *.
    set (s1 := mkSession (session_deckId s) (session_cards s)
                         (S (currentIndex s))).
    assert (Hwf1 : wf st1) by (by apply wf_with_dom, wf_rated).
    destruct (IH st1 s1 Hwf1 eq_refl Hnd) as (st' & Hall & HA & HB);
      [simpl; lia|].
    assert (Hother : forall r, r <> r0 -> heap st1 !! r = heap st !! r).
    { intros r Hne. simpl. by apply list_lookup_insert_ne. }
    assert (Hdistinct : forall k r,
              session_cards s !! (currentIndex s + S k) = Some r -> r <> r0).
    { intros k r Hr ->. rewrite NoDup_alt in Hnd.
      pose proof (Hnd _ _ _ Hr Hr0). lia. }
    exists st'. simpl. rewrite Hrate. simpl. split; [exact Hall|]. split.
    + intros [|k] rating t r Hk Hr.
      * simpl in Hk. injection Hk as <- <-. rewrite Nat.add_0_r in Hr.
        rewrite Hr0 in Hr. injection Hr as <-.
        rewrite HB.
        -- simpl. rewrite Hc0. simpl.
           apply list_lookup_insert_eq. by apply lookup_lt_is_Some.
        -- intros k _ Hr. simpl in Hr. rewrite <- Nat.add_succ_r in Hr.
           by apply (Hdistinct k r0).
      * simpl in Hk. rewrite (HA k rating t r Hk).
        -- by rewrite (Hother r (Hdistinct k r Hr)).
        -- simpl. by rewrite <- Nat.add_succ_r.
    + intros r Hr. rewrite HB.
      * apply Hother. intros ->. apply (Hr 0); [simpl; lia|].
        by rewrite Nat.add_0_r.
      * intros k Hk. simpl. rewrite <- Nat.add_succ_r. apply Hr. simpl. lia.
Qed.

(** X12. A session carried to its end stamps every card of the deck once:
    when the deck lists no card twice, after the start and one rating per
    card the i-th card of the deck has the time of the i-th rating as its
    [lastReviewed] and is otherwise as it was, and the cards of the other
    decks are untouched. *)
Theorem session_stamps_every_card deckId st ratings :
  wf st ->
  NoDup (deck_cards_of deckId st) ->
  deck_cards_of deckId st <> [] ->
  length ratings = length (deck_cards_of deckId st) ->
  exists st0 stk,
    startStudySession deckId st = Returned st0 /\
    rateAll ratings st0 = Returned stk /\
    (forall i rating t r,
       ratings !! i = Some (rating, t) ->
       deck_cards_of deckId st !! i = Some r ->
       heap stk !! r = set_lastReviewed t <$> heap st !! r) /\
    (forall r, r ∉ deck_cards_of deckId st -> heap stk !! r = heap st !! r) /\
    decks stk = decks st.
Proof.
  intros Hwf Hnd Hne Hlen.
  destruct (startStudySession_cases deckId st Hwf) as [_ H].
  destruct (H Hne) as (st0 & Hst & Hs & _ & _ & _ & _ & _ & Hd & Hh). clear H.
  assert (Hwf0 : wf st0).
  { replace st0 with (state_of (startStudySession deckId st)) by by rewrite Hst.
    by apply wf_startStudySession. }
  destruct (rateAll_heap ratings st0 _ Hwf0 Hs Hnd) as (stk & Hall & HA & HB);
    [simpl; lia|].
  simpl in *. exists st0, stk. rewrite <- Hh. repeat split; try done.
  - intros r Hr. apply HB. intros k _ Hk. apply Hr.
    by apply list_elem_of_lookup_2 in Hk.
  - rewrite <- Hd. clear -Hall. revert st0 Hall.
    induction ratings as [|[rating now] ratings IH]; intros st0; simpl.
    + by intros [= <-].
    + destruct (rateCard_shape rating now st0)
        as [Heq|(s & r & card & d & _ & _ & _ & Heq)];
        destruct (rateCard rating now st0) as [st1|e st1]; simpl in *;
        try done; subst st1; intros Hall; by rewrite (IH _ Hall).
Qed.

Lemma session_stamps_every_card_witness :
  wf demo_two /\ NoDup (deck_cards_of "1000" demo_two) /\
  exists st0 stk,
    startStudySession "1000" demo_two = Returned st0 /\
    rateAll [(rating_good, 5000%Z); (rating_hard, 6000%Z)] st0 = Returned stk /\
    (lastReviewed <$> heap stk !! 0) = Some (Some 5000%Z) /\
    (lastReviewed <$> heap stk !! 1) = Some (Some 6000%Z).
Proof.
  assert (Hwf : wf demo_two) by solve_wf.
  assert (Hnd : NoDup (deck_cards_of "1000" demo_two))
    by (apply (bool_decide_unpack _); vm_compute; exact I).
  split; [exact Hwf|]. split; [exact Hnd|].
  destruct (session_stamps_every_card "1000" demo_two
              [(rating_good, 5000%Z); (rating_hard, 6000%Z)] Hwf Hnd)
    as (st0 & stk & Hst & Hall & HA & _); [vm_compute; discriminate|reflexivity|].
  exists st0, stk. split; [exact Hst|]. split; [exact Hall|].
  rewrite (HA 0 rating_good 5000%Z 0 eq_refl eq_refl).
  rewrite (HA 1 rating_hard 6000%Z 1 eq_refl eq_refl).
  split; reflexivity.
Defined.

(** X13. After the last card the view reads that the session is
    completed, but the session is still there: a further [rateCard] raises
    a [TypeError] and leaves the state, cursor included, exactly as it
    was, however often it is repeated. *)
Theorem rateCard_past_the_end deckId st ratings rating now :
  wf st ->
  deck_cards_of deckId st <> [] ->
  length ratings = length (deck_cards_of deckId st) ->
  exists st0 stk,
    startStudySession deckId st = Returned st0 /\
    rateAll ratings st0 = Returned stk /\
    question_text (dom stk) = "Study session completed!" /\
    rateCard rating now stk = Threw TypeError stk /\
    run [RateCard rating now; RateCard rating now] stk = stk.
Proof.
  intros Hwf Hne Hlen.
  destruct (startStudySession_cases deckId st Hwf) as [_ H].
  destruct (H Hne) as (st0 & Hst & Hs & _ & Hp & _). clear H.
  assert (Hwf0 : wf st0).
  { replace st0 with (state_of (startStudySession deckId st)) by by rewrite Hst.
    by apply wf_startStudySession. }
  destruct (rateAll_session ratings st0 _ Hwf0 Hs)
    as (stk & Hall & _ & Hsk & _ & Hdone); simpl; [lia|by rewrite Hp|].
  simpl in Hsk, Hdone.
  assert (Hthrow : rateCard rating now stk = Threw TypeError stk).
  { apply (rateCard_after_completion stk _ rating now Hsk). simpl. lia. }
  exists st0, stk. split; [done|]. split; [done|]. split.
  - apply Hdone; [|done]. intros ->. by destruct (deck_cards_of deckId st).
  - split; [done|]. simpl. rewrite Hthrow. simpl. by rewrite Hthrow.
Qed.

Lemma rateCard_past_the_end_witness :
  wf demo_one /\ deck_cards_of "1000" demo_one <> [] /\
  exists st0 stk,
    startStudySession "1000" demo_one = Returned st0 /\
    rateAll [(rating_good, 5000%Z)] st0 = Returned stk /\
    rateCard rating_good 6000 stk = Threw TypeError stk.
Proof.
  assert (Hwf : wf demo_one) by solve_wf.
  assert (Hne : deck_cards_of "1000" demo_one <> []) by (vm_compute; discriminate).
  split; [exact Hwf|]. split; [exact Hne|].
  destruct (rateCard_past_the_end "1000" demo_one [(rating_good, 5000%Z)]
              rating_good 6000 Hwf Hne eq_refl)
    as (st0 & stk & Hst & Hall & _ & Hthrow & _).
  exists st0, stk. split; [exact Hst|]. split; [exact Hall|]. exact Hthrow.
Defined.

(** ** Switching views during a session *)





(** ** The dashboard *)

Lemma insert_recent_perm d l : insert_recent d l ≡ₚ d :: l.
Proof.
  induction l as [|x l IH]; simpl; [done|].
  destruct (deck_createdAt x <=? deck_createdAt d)%Z; [done|].
  rewrite IH. apply perm_swap.
Qed.

Lemma sort_recent_perm l : sort_recent l ≡ₚ l.
Proof.
  induction l as [|d l IH]; simpl; [done|]. by rewrite insert_recent_perm, IH.
Qed.

Lemma insert_recent_sorted d l :
  StronglySorted (fun a b => (deck_createdAt b <= deck_createdAt a)%Z) l ->
  StronglySorted (fun a b => (deck_createdAt b <= deck_createdAt a)%Z)
                 (insert_recent d l).
Proof.
  induction 1 as [|x l Hl IH Hx]; simpl.
  - repeat constructor.
  - destruct (deck_createdAt x <=? deck_createdAt d)%Z eqn:E.
    + apply Z.leb_le in E. constructor; [by constructor|].
      constructor; [done|]. eapply Forall_impl; [exact Hx|].
      intros y Hy. simpl in *. lia.
    + apply Z.leb_gt in E. constructor; [done|].
      rewrite insert_recent_perm. constructor; [lia|done].
Qed.

Lemma sort_recent_sorted l :
  StronglySorted (fun a b => (deck_createdAt b <= deck_createdAt a)%Z)
                 (sort_recent l).
Proof.
  induction l as [|d l IH]; simpl; [constructor|]. by apply insert_recent_sorted.
Qed.

(** X15. The recent decks of the dashboard are the three newest decks of
    the application (all of them when there are fewer), newest first: the
    list has min(3, number of decks) decks, is ordered by decreasing
    creation time, and together with the decks it leaves out, none of
    which is newer than a listed one, it is a rearrangement of the decks
    of the application. *)
Theorem recentDecks_newest st :
  length (recentDecks st) = Nat.min 3 (length (decks st)) /\
  StronglySorted (fun a b => (deck_createdAt b <= deck_createdAt a)%Z)
                 (recentDecks st) /\
  exists rest,
    recentDecks st ++ rest ≡ₚ decks st /\
    forall a b, a ∈ recentDecks st -> b ∈ rest ->
                (deck_createdAt b <= deck_createdAt a)%Z.
Proof.
  unfold recentDecks.
  pose proof (sort_recent_sorted (decks st)) as Hs.
  rewrite <- (take_drop 3 (sort_recent (decks st))) in Hs.
  split; [|split].
  - rewrite length_take. by rewrite (Permutation_length (sort_recent_perm _)).
  - by apply StronglySorted_app_1_l in Hs.
  - exists (drop 3 (sort_recent (decks st))). split.
    + rewrite take_drop. apply sort_recent_perm.
    + intros a b Ha Hb.
      exact (StronglySorted_app_1_elem_of _ _ _ a b Hs Ha Hb).
Qed.

Lemma fold_reviews_zero (cards : list Card) acc :
  Forall (fun c => repetitions c = 0%Z) cards ->
  fold_left (fun total card => (total + or_zero (repetitions card))%Z) cards acc
  = acc.
Proof.
  intros H. revert acc. induction H as [|c cards Hc _ IH]; intros acc; simpl;
    [done|]. rewrite Hc. simpl. rewrite Z.add_0_r. apply IH.
Qed.

Lemma fold_successful_all (cards : list Card) acc :
  Forall (fun c => ease_above_two c = true) cards ->
  fold_left (fun n card => if ease_above_two card then (n + 1)%Z else n) cards acc
  = (acc + Z.of_nat (length cards))%Z.
Proof.
  intros H. revert acc. induction H as [|c cards Hc _ IH]; intros acc; simpl;
    [lia|]. rewrite Hc, IH. lia.
Qed.

Lemma deck_card_objects_in st deck c :
  c ∈ deck_card_objects st deck -> c ∈ heap st.
Proof.
  unfold deck_card_objects. rewrite list_elem_of_omap.
  intros (r & _ & Hr). by apply list_elem_of_lookup_2 in Hr.
Qed.

Lemma deck_card_objects_length st deck :
  valid_refs (heap st) (deck_cards deck) ->
  length (deck_card_objects st deck) = length (deck_cards deck).
Proof.
  unfold deck_card_objects, valid_refs, omap.
  induction 1 as [|r refs Hr _ IH]; simpl; [done|].
  destruct (lookup_lt_is_Some_2 _ _ Hr) as [c ->]. simpl. by rewrite IH.
Qed.

(** X16. As no call ever counts a repetition, the dashboard of an
    application started on an empty storage always shows a retention rate
    of 0%: the total of the reviews is 0 whatever has been rated, while
    every card of every deck counts as a successful review, its ease
    factor being 2.5. *)
Theorem retention_always_zero d ops :
  totalReviews (run ops (newAksonApp d)) = 0%Z /\
  retentionRate (run ops (newAksonApp d)) = 0%Z /\
  successfulReviews (run ops (newAksonApp d))
  = Z.of_nat (length (deck_refs (run ops (newAksonApp d)))).
Proof.
  pose proof (wf_run ops _ (wf_newAksonApp d)) as [Hwf _].
  assert (Hinit : Forall schedule_initial (heap (run ops (newAksonApp d)))).
  { apply (run_keeps schedule_initial newCard_initial); [by intros t c H|constructor]. }
  revert Hwf Hinit. generalize (run ops (newAksonApp d)). intros st Hwf Hinit.
  rewrite Forall_forall in Hinit.
  assert (Htotal : totalReviews st = 0%Z).
  { unfold totalReviews.
    assert (Hacc : forall acc,
      fold_left (fun total deck =>
                   fold_left (fun total card =>
                                (total + or_zero (repetitions card))%Z)
                             (deck_card_objects st deck) total) (decks st) acc
      = acc); [|apply Hacc].
    clear Hwf. induction (decks st) as [|deck ds IH]; intros acc; simpl; [done|].
    rewrite fold_reviews_zero.
    - apply IH.
    - apply Forall_forall. intros c Hc.
      by destruct (Hinit c (deck_card_objects_in _ _ _ Hc)) as (_ & _ & ?). }
  split; [done|]. split; [unfold retentionRate; by rewrite Htotal|].
  unfold successfulReviews, deck_refs.
  assert (Hgen : forall acc,
    fold_left (fun n deck =>
                 fold_left (fun n card => if ease_above_two card then (n + 1)%Z else n)
                           (deck_card_objects st deck) n) (decks st) acc
    = (acc + Z.of_nat (length (concat (map deck_cards (decks st)))))%Z).
  { induction Hwf as [|deck ds Hv _ IH]; intros acc; simpl; [lia|].
    rewrite fold_successful_all.
    - rewrite IH, length_app, (deck_card_objects_length st deck Hv). lia.
    - apply Forall_forall. intros c Hc.
      destruct (Hinit c (deck_card_objects_in _ _ _ Hc)) as (_ & He & _).
      unfold ease_above_two. by rewrite He. }
  by rewrite Hgen.
Qed.

(** ** Exceptions *)






(** ** Deleting the deck under study *)

Lemma nextCard_with_decks ds st :
  nextCard (with_decks ds st)
  = match nextCard st with
    | Returned st' => Returned (with_decks ds st')
    | Threw e st' => Threw e (with_decks ds st')
    end.
Proof.
  unfold nextCard.
  change (session_completed (with_decks ds st)) with (session_completed st).
  destruct (session_completed st); [done|].
  change (currentStudySession (with_decks ds st)) with (currentStudySession st).
  destruct (currentStudySession st) as [s|]; [|done].
  change (heap (with_decks ds st)) with (heap st).
  by destruct (session_cards s !! currentIndex s ≫= _).
Qed.

Lemma rateCard_with_decks ds rating now st :
  rateCard rating now (with_decks ds st)
  = match rateCard rating now st with
    | Returned st' => Returned (with_decks ds st')
    | Threw e st' => Threw e (with_decks ds st')
    end.
Proof.
  unfold rateCard.
  change (currentStudySession (with_decks ds st)) with (currentStudySession st).
  destruct (currentStudySession st) as [s|]; [|done].
  destruct (session_cards s !! currentIndex s) as [r|]; [|done].
  change (heap (with_decks ds st)) with (heap st).
  destruct (heap st !! r) as [card|]; [|done].
  exact (nextCard_with_decks ds (rated s r card now st)).
Qed.

(** X18. Deleting the deck under study does not stop the session.  The
    rating goes on over the cards the session holds: rating after the
    deletion gives the state that deleting after the rating gives.  But
    the study view, entered again, no longer shows the card: it reports a
    deck without cards, named Unknown Deck, with progress 0/0. *)
Theorem delete_deck_under_study st s rating now :
  session_inv st ->
  currentStudySession st = Some s ->
  is_empty (session_deckId s) = false ->
  state_of (rateCard rating now (deleteDeck (session_deckId s) true st))
  = deleteDeck (session_deckId s) true (state_of (rateCard rating now st)) /\
  switchView StudyView (deleteDeck (session_deckId s) true st)
  = Returned (with_dom
                (study_message
                   "This deck has no cards. Add some cards to start studying."
                   "Unknown Deck" (dom st))
                (with_view StudyView (deleteDeck (session_deckId s) true st))).
Proof.
  intros [_ Hinv] Hs Hid. rewrite Hs in Hinv. destruct Hinv as (Hcur & _ & _).
  split.
  - unfold deleteDeck at 1. rewrite rateCard_with_decks.
    pose proof (proj1 (decks_heap_session_calls (RateCard rating now) st eq_refl))
      as Hd. simpl in Hd.
    unfold deleteDeck. rewrite Hd.
    by destruct (rateCard rating now st).
  - unfold switchView, switchView_with, renderStudyView_with. simpl.
    rewrite Hcur. simpl. rewrite Hid.
    change (find_deck (session_deckId s)
              (with_view StudyView (deleteDeck (session_deckId s) true st)))
      with (find_deck (session_deckId s) (deleteDeck (session_deckId s) true st)).
    unfold find_deck. simpl. by rewrite find_deck_from_deleted.
Qed.

Lemma delete_deck_under_study_witness :
  session_inv demo_started /\
  currentStudySession demo_started = Some (mkSession "1000" [0; 1] 0) /\
  question_text
    (dom (state_of (switchView StudyView (deleteDeck "1000" true demo_started))))
  = "This deck has no cards. Add some cards to start studying.".
Proof.
  assert (Hinv : session_inv demo_started).
  { split; [reflexivity|]. vm_compute. repeat split; [discriminate|].
    repeat constructor. }
  split; [exact Hinv|]. split; [reflexivity|].
  pose proof (proj2 (delete_deck_under_study demo_started
                       (mkSession "1000" [0; 1] 0) rating_good 5000
                       Hinv eq_refl eq_refl)) as H.
  cbn [session_deckId] in H. rewrite H. reflexivity.
Defined.
